(** * 5G network QoS simulator: the per-step loop of [simulator.py]

    A shallow embedding of [UE] and [FiveGSimulator] (constructor, channel
    helpers, [run]) and the properties of the simulation loop.

    Numbers.  Python and numpy compute on binary64 floats; this development
    computes on the real numbers ([R]), that is, it describes the loop up to
    the rounding of the last bit.  [np.log10], [np.log2] and [**] are the
    real logarithms and power.  One rounding is not a matter of the last
    bit and is modelled: in [1 + snr_lin] a linear SNR of at most 2^-53 is
    absorbed, the sum is 1 and its logarithm 0, so a capacity can be exactly
    0 ([one_plus]).  Outside their domain (a logarithm of a non-positive
    number, a quotient by zero) numpy yields an infinity or a NaN and
    carries on; the reals have no such values, so there the model's number
    is not the program's.  This matters for one quotient of a valid
    configuration: the proportional-fair share [w / total_w], which is
    0.0/0.0 = NaN in the program when every capacity is 0.  The traced model
    of the last part records the divisors and logarithm arguments, and
    [well_conditioned] names the runs in which binary64 neither absorbs nor
    overflows a link.

    Randomness.  The two random sources of the program are explicit inputs:
    [draws i] is the raw outcome behind the [i]-th call of
    [np.random.randint] in the constructor, and [fading t i] is the Rayleigh
    sample drawn at step [t] for the terminal at position [i].

    Effects.  Terminals are mutated in place by [run]; the model passes the
    list of terminals along.  An exception leaves the terminals as they were
    mutated up to the [raise], so the outcome of a run carries them too.
    Of [save_results] the summary table is modelled; its plots and CSV
    file, and [os.makedirs], only write files and are outside the model. *)

From Stdlib Require Import Reals Lra Lia ZArith Bool String List.
From Stdlib Require Import Sorted Permutation FinFun.
Import ListNotations.

Open Scope R_scope.

(** ** numpy and Python primitives *)

Module Np.

Definition log10 (x : R) : R := ln x / ln 10.

Definition log2 (x : R) : R := ln x / ln 2.

Definition pi : R := PI.

(** Python's [b ** e] on floats, for a positive base. *)
Definition power (b e : R) : R := Rpower b e.

(** [np.random.randint(low, high)]: an integer of [[low, high)], here the
    image of an arbitrary raw outcome [r] of the generator. *)
Definition randint (low high : Z) (r : Z) : Z :=
  (low + r mod (high - low))%Z.

End Np.

(** The largest term that binary64 absorbs when it is added to 1: 2^-53
    (ties go to the even neighbour, which is 1). *)
Definition absorb_threshold : R := / 9007199254740992.

(** [1 + x] in binary64, for [x >= 0]: a term of at most 2^-53 is absorbed
    and the sum is exactly 1; above it the model takes the sum as it is. *)
Definition one_plus (x : R) : R :=
  if Rle_dec x absorb_threshold then 1 else 1 + x.

(** Python's builtin [sum]: a left fold that starts from 0. *)
Definition sum (xs : list R) : R := fold_left Rplus xs 0.

(** ** class UE *)

Record UE : Type := mkUE {
  id : Z;
  distance : R;
  throughput_history : list R;
  latency_history : list R;
  snr_history : list R;
  avg_throughput : R
}.

(** [UE.__init__(ue_id, distance_m)] *)
Definition UE_init (ue_id : Z) (distance_m : R) : UE :=
  {| id := ue_id;
     distance := distance_m;
     throughput_history := [];
     latency_history := [];
     snr_history := [];
     avg_throughput := 1e-6 |}.

(** ** class FiveGSimulator *)

Record FiveGSimulator : Type := mkSim {
  num_ues : Z;
  total_bw_hz : R;
  tx_power_dbm : R;
  noise_fig_db : R;
  mimo_gain : R;
  scheduler : string;
  sim_steps : Z;
  out_dir : string;
  ues : list UE
}.

(** [FiveGSimulator.__init__]: the attributes are stored as given, and one
    terminal is built per element of [range(num_ues)], each with its own
    [randint(50, 500)] draw. *)
Definition FiveGSimulator_init (num_ues : Z) (total_bw_hz tx_power_dbm
    noise_fig_db mimo_gain : R) (scheduler : string) (sim_steps : Z)
    (out_dir : string) (draws : nat -> Z) : FiveGSimulator :=
  {| num_ues := num_ues;
     total_bw_hz := total_bw_hz;
     tx_power_dbm := tx_power_dbm;
     noise_fig_db := noise_fig_db;
     mimo_gain := mimo_gain;
     scheduler := scheduler;
     sim_steps := sim_steps;
     out_dir := out_dir;
     ues := map (fun i => UE_init (Z.of_nat i)
                            (IZR (Np.randint 50 500 (draws i))))
                (seq 0 (Z.to_nat num_ues)) |}.

(** [path_loss_db(d, f=3.5e9)] *)
Definition path_loss_db (d : R) (f : R) : R :=
  let c := 3e8 in
  let d0 := 1 in
  let pl_d0 := 20 * Np.log10 (4 * Np.pi * d0 * f / c) in
  let n := 3 in
  pl_d0 + 10 * n * Np.log10 (d / d0).

Definition f_default : R := 3.5e9.

Definition noise_power_dbm (self : FiveGSimulator) (bw_hz : R) : R :=
  let kT_dbm_hz := -174 in
  kT_dbm_hz + 10 * Np.log10 bw_hz + noise_fig_db self.

(** ** run: the link phase (source lines 74 to 89) *)

Definition snr_db_of (self : FiveGSimulator) (fading : R) (ue : UE) : R :=
  let pl := path_loss_db (distance ue) f_default in
  let fading_db := 20 * Np.log10 (fading + 1e-9) in
  let mimo_gain_db := 10 * Np.log10 (mimo_gain self) in
  let rx_power := tx_power_dbm self - pl + fading_db + mimo_gain_db in
  let noise_dbm := noise_power_dbm self (total_bw_hz self) in
  rx_power - noise_dbm.

Definition snr_lin_of (snr_db : R) : R := Np.power 10 (snr_db / 10).

Definition cap_of (self : FiveGSimulator) (snr_lin : R) : R :=
  total_bw_hz self * Np.log2 (one_plus snr_lin).

Definition append_snr (ue : UE) (snr_db : R) : UE :=
  {| id := id ue;
     distance := distance ue;
     throughput_history := throughput_history ue;
     latency_history := latency_history ue;
     snr_history := snr_history ue ++ [snr_db];
     avg_throughput := avg_throughput ue |}.

(** The values one pass over the terminals leaves behind. *)
Record Links : Type := mkLinks {
  linked : list UE;
  snrs_linear : list R;
  inst_caps : list R
}.

(** The inner [for ue in self.ues] loop; [i] is the position of the head
    of [us] in [self.ues]. *)
Fixpoint link_phase (self : FiveGSimulator) (fading : nat -> R) (i : nat)
    (us : list UE) : Links :=
  match us with
  | [] => mkLinks [] [] []
  | ue :: rest =>
      let snr_db := snr_db_of self (fading i) ue in
      let snr_lin := snr_lin_of snr_db in
      let cap := cap_of self snr_lin in
      let r := link_phase self fading (S i) rest in
      mkLinks (append_snr ue snr_db :: linked r)
              (snr_lin :: snrs_linear r)
              (cap :: inst_caps r)
  end.

(** ** run: bandwidth allocation (source lines 91 to 99) *)

Inductive exn : Type :=
| ValueError (msg : string)
| ZeroDivisionError.

Definition pf_weights (inst_caps : list R) (us : list UE) : list R :=
  map (fun cu : R * UE => fst cu / (avg_throughput (snd cu) + 1e-9))
      (combine inst_caps us).

(** The shares of the proportional-fair branch are quotients by the total
    weight.  When that is 0 (every capacity is 0) the program computes
    0.0/0.0 = NaN for every share; the reals have no such value, and what
    this definition returns in that case is not the program's allocation.
    [shares_defined] says that the case does not arise. *)
Definition allocate (self : FiveGSimulator) (inst_caps : list R)
    (us : list UE) : exn + list R :=
  if (scheduler self =? "equal")%string then
    if (num_ues self =? 0)%Z then inl ZeroDivisionError
    else inr (repeat (total_bw_hz self / IZR (num_ues self))
                     (Z.to_nat (num_ues self)))
  else if (scheduler self =? "pf")%string then
    let weights := pf_weights inst_caps us in
    let total_w := sum weights in
    inr (map (fun w => (w / total_w) * total_bw_hz self) weights)
  else inl (ValueError "Scheduler must be 'equal' or 'pf'").

(** ** run: throughput, latency and the moving average (lines 101 to 115) *)

Definition cap_bps_of (bw snr_lin : R) : R :=
  bw * Np.log2 (one_plus snr_lin).

Definition throughput_mbps_of (bw snr_lin : R) : R :=
  cap_bps_of bw snr_lin / 1e6.

Definition latency_ms_of (ue : UE) (bw snr_lin : R) : R :=
  let packet_bits := 1e6 in
  let tx_time_s := packet_bits / (cap_bps_of bw snr_lin + 1e-9) in
  let prop_delay_s := distance ue / 3e8 in
  (tx_time_s + prop_delay_s + 1e-3) * 1000.

Definition metrics_ue (ue : UE) (bw snr_lin : R) : UE :=
  let throughput_mbps := throughput_mbps_of bw snr_lin in
  {| id := id ue;
     distance := distance ue;
     throughput_history := throughput_history ue ++ [throughput_mbps];
     latency_history := latency_history ue ++ [latency_ms_of ue bw snr_lin];
     snr_history := snr_history ue;
     avg_throughput := 0.9 * avg_throughput ue + 0.1 * throughput_mbps |}.

(** [for ue, bw, snr_lin, cap in zip(...)]: the zip stops at the shortest
    list, and the terminals beyond it stay as they are. *)
Fixpoint metrics_phase (us : list UE) (bw_alloc snrs caps : list R)
    : list UE :=
  match us, bw_alloc, snrs, caps with
  | ue :: us', bw :: bws, s :: ss, _ :: cs =>
      metrics_ue ue bw s :: metrics_phase us' bws ss cs
  | _, _, _, _ => us
  end.

(** ** run: one step, and the loop over [range(sim_steps)] *)

Inductive outcome : Type :=
| Ok (us : list UE)
| Raised (e : exn) (us : list UE).

Definition step (self : FiveGSimulator) (fading : nat -> R) (us : list UE)
    : outcome :=
  let l := link_phase self fading 0 us in
  match allocate self (inst_caps l) (linked l) with
  | inl e => Raised e (linked l)
  | inr bw_alloc =>
      Ok (metrics_phase (linked l) bw_alloc (snrs_linear l) (inst_caps l))
  end.

(** Steps [t], [t+1], ..., [t+n-1], from the terminals [us]. *)
Fixpoint run_steps (self : FiveGSimulator) (fading : nat -> nat -> R)
    (t n : nat) (us : list UE) : outcome :=
  match n with
  | O => Ok us
  | S n' =>
      match step self (fading t) us with
      | Ok us' => run_steps self fading (S t) n' us'
      | Raised e us' => Raised e us'
      end
  end.

Definition run (self : FiveGSimulator) (fading : nat -> nat -> R) : outcome :=
  run_steps self fading 0 (Z.to_nat (sim_steps self)) (ues self).

(** The terminals after the first [k] steps of a run. *)
Definition state_after (self : FiveGSimulator) (fading : nat -> nat -> R)
    (k : nat) : outcome :=
  run_steps self fading 0 k (ues self).

(** The allocation computed in a step that starts from the terminals [us]. *)
Definition bw_alloc_of (self : FiveGSimulator) (fading : nat -> R)
    (us : list UE) : exn + list R :=
  let l := link_phase self fading 0 us in
  allocate self (inst_caps l) (linked l).

(** The program's entry point: [FiveGSimulator(num_ues=5, sim_steps=100,
    scheduler="pf")], the other arguments at their defaults. *)
Definition main_sim (draws : nat -> Z) : FiveGSimulator :=
  FiveGSimulator_init 5 20e6 43 7 2 "pf" 100 "output" draws.

(** ** The traced model: which numbers are divided by, and which are
    passed to a logarithm

    The same code once more, with every [/] and every [np.log10] and
    [np.log2] of the source recording its divisor or its argument. *)

Inductive operand : Type :=
| Divisor (d : R)
| LogArg (x : R).

Definition traced (A : Type) : Type := (A * list operand)%type.

Definition ret {A : Type} (a : A) : traced A := (a, []).

Definition bind {A B : Type} (m : traced A) (k : A -> traced B) : traced B :=
  (fst (k (fst m)), snd m ++ snd (k (fst m))).

Notation "x <- m ;; k" := (bind m (fun x => k))
  (at level 61, m at next level, right associativity).

Definition div_t (a b : R) : traced R := (a / b, [Divisor b]).
Definition log10_t (x : R) : traced R := (Np.log10 x, [LogArg x]).
Definition log2_t (x : R) : traced R := (Np.log2 x, [LogArg x]).

Fixpoint map_t {A B : Type} (f : A -> traced B) (xs : list A)
    : traced (list B) :=
  match xs with
  | [] => ret []
  | x :: xs' => y <- f x ;; ys <- map_t f xs' ;; ret (y :: ys)
  end.

Definition path_loss_db_t (d : R) (f : R) : traced R :=
  let c := 3e8 in
  let d0 := 1 in
  q0 <- div_t (4 * Np.pi * d0 * f) c ;;
  l0 <- log10_t q0 ;;
  let pl_d0 := 20 * l0 in
  let n := 3 in
  q1 <- div_t d d0 ;;
  l1 <- log10_t q1 ;;
  ret (pl_d0 + 10 * n * l1).

Definition noise_power_dbm_t (self : FiveGSimulator) (bw_hz : R) : traced R :=
  let kT_dbm_hz := -174 in
  l <- log10_t bw_hz ;;
  ret (kT_dbm_hz + 10 * l + noise_fig_db self).

Definition snr_db_t (self : FiveGSimulator) (fading : R) (ue : UE)
    : traced R :=
  pl <- path_loss_db_t (distance ue) f_default ;;
  lf <- log10_t (fading + 1e-9) ;;
  let fading_db := 20 * lf in
  lm <- log10_t (mimo_gain self) ;;
  let mimo_gain_db := 10 * lm in
  let rx_power := tx_power_dbm self - pl + fading_db + mimo_gain_db in
  noise_dbm <- noise_power_dbm_t self (total_bw_hz self) ;;
  ret (rx_power - noise_dbm).

Definition snr_lin_t (snr_db : R) : traced R :=
  q <- div_t snr_db 10 ;;
  ret (Np.power 10 q).

Definition cap_t (self : FiveGSimulator) (snr_lin : R) : traced R :=
  l <- log2_t (one_plus snr_lin) ;;
  ret (total_bw_hz self * l).

Fixpoint link_phase_t (self : FiveGSimulator) (fading : nat -> R) (i : nat)
    (us : list UE) : traced Links :=
  match us with
  | [] => ret (mkLinks [] [] [])
  | ue :: rest =>
      snr_db <- snr_db_t self (fading i) ue ;;
      snr_lin <- snr_lin_t snr_db ;;
      cap <- cap_t self snr_lin ;;
      r <- link_phase_t self fading (S i) rest ;;
      ret (mkLinks (append_snr ue snr_db :: linked r)
                   (snr_lin :: snrs_linear r)
                   (cap :: inst_caps r))
  end.

Definition allocate_t (self : FiveGSimulator) (inst_caps : list R)
    (us : list UE) : traced (exn + list R) :=
  if (scheduler self =? "equal")%string then
    share <- div_t (total_bw_hz self) (IZR (num_ues self)) ;;
    if (num_ues self =? 0)%Z then ret (inl ZeroDivisionError)
    else ret (inr (repeat share (Z.to_nat (num_ues self))))
  else if (scheduler self =? "pf")%string then
    weights <- map_t (fun cu : R * UE =>
                        div_t (fst cu) (avg_throughput (snd cu) + 1e-9))
                     (combine inst_caps us) ;;
    let total_w := sum weights in
    bw_alloc <- map_t (fun w => q <- div_t w total_w ;;
                                ret (q * total_bw_hz self)) weights ;;
    ret (inr bw_alloc)
  else ret (inl (ValueError "Scheduler must be 'equal' or 'pf'")).

Definition metrics_ue_t (ue : UE) (bw snr_lin : R) : traced UE :=
  l <- log2_t (one_plus snr_lin) ;;
  let cap_bps := bw * l in
  throughput_mbps <- div_t cap_bps 1e6 ;;
  let packet_bits := 1e6 in
  tx_time_s <- div_t packet_bits (cap_bps + 1e-9) ;;
  prop_delay_s <- div_t (distance ue) 3e8 ;;
  let latency_ms := (tx_time_s + prop_delay_s + 1e-3) * 1000 in
  ret {| id := id ue;
         distance := distance ue;
         throughput_history := throughput_history ue ++ [throughput_mbps];
         latency_history := latency_history ue ++ [latency_ms];
         snr_history := snr_history ue;
         avg_throughput := 0.9 * avg_throughput ue + 0.1 * throughput_mbps |}.

Fixpoint metrics_phase_t (us : list UE) (bw_alloc snrs caps : list R)
    : traced (list UE) :=
  match us, bw_alloc, snrs, caps with
  | ue :: us', bw :: bws, s :: ss, _ :: cs =>
      ue' <- metrics_ue_t ue bw s ;;
      rest <- metrics_phase_t us' bws ss cs ;;
      ret (ue' :: rest)
  | _, _, _, _ => ret us
  end.

Definition step_t (self : FiveGSimulator) (fading : nat -> R) (us : list UE)
    : traced outcome :=
  l <- link_phase_t self fading 0 us ;;
  a <- allocate_t self (inst_caps l) (linked l) ;;
  match a with
  | inl e => ret (Raised e (linked l))
  | inr bw_alloc =>
      us' <- metrics_phase_t (linked l) bw_alloc (snrs_linear l)
                             (inst_caps l) ;;
      ret (Ok us')
  end.

(** An operand that neither divides by zero nor takes the logarithm of a
    non-positive number; for divisors the floors give more: positivity. *)
Definition operand_ok (o : operand) : Prop :=
  match o with
  | Divisor d => 0 < d
  | LogArg x => 0 < x
  end.

(** ** Configurations and states the properties are about *)

(** The configuration surface: positive terminal count, bandwidth and step
    count, a MIMO gain factor of at least 1, a recognised scheduler. *)
Record valid_config (self : FiveGSimulator) : Prop := mkValid {
  valid_num_ues : (0 < num_ues self)%Z;
  valid_total_bw : 0 < total_bw_hz self;
  valid_mimo_gain : 1 <= mimo_gain self;
  valid_sim_steps : (0 < sim_steps self)%Z;
  valid_scheduler : scheduler self = "equal"%string \/
                    scheduler self = "pf"%string
}.

Definition recognised (self : FiveGSimulator) : Prop :=
  scheduler self = "equal"%string \/ scheduler self = "pf"%string.

(** A terminal as [UE.__init__] leaves it, at a positive distance. *)
Definition fresh_ue (ue : UE) : Prop :=
  0 < distance ue /\
  throughput_history ue = [] /\ latency_history ue = [] /\
  snr_history ue = [] /\ avg_throughput ue = 1e-6.

(** A simulator on which [run] has not been called: one untouched terminal
    per unit of [num_ues]. *)
Definition fresh (self : FiveGSimulator) : Prop :=
  length (ues self) = Z.to_nat (num_ues self) /\ Forall fresh_ue (ues self).

Definition histories_empty (ue : UE) : Prop :=
  throughput_history ue = [] /\ latency_history ue = [] /\
  snr_history ue = [].

Definition histories_length (k : nat) (ue : UE) : Prop :=
  length (throughput_history ue) = k /\
  length (latency_history ue) = k /\
  length (snr_history ue) = k.

(** What one step does to one terminal's moving average: the sample is the
    value the step appended to the throughput history. *)
Definition ema_updated (ue ue' : UE) : Prop :=
  exists sample,
    throughput_history ue' = throughput_history ue ++ [sample] /\
    avg_throughput ue' = 0.9 * avg_throughput ue + 0.1 * sample.

(** The latency as the specification words it, from the distance and the
    realised capacity: the packet's transmission time at the capacity
    itself, without the floor of [1e-9] that the code adds to the
    divisor. *)
Definition spec_latency_ms (distance_m cap_bps : R) : R :=
  (1e6 / cap_bps + distance_m / 3e8 + 1e-3) * 1000.

(** The latency the code records, as a function of the same quantities
    (lines 108 to 111). *)
Definition code_latency_ms (distance_m cap_bps : R) : R :=
  (1e6 / (cap_bps + 1e-9) + distance_m / 3e8 + 1e-3) * 1000.

(** What holds of the model's terminals between two steps of a run, [k]
    steps having been completed.  (The model's average stays positive also
    after a step whose shares are 0/0, where the program's is NaN.) *)
Definition run_invariant (self : FiveGSimulator) (k : nat) (us : list UE)
    : Prop :=
  length us = Z.to_nat (num_ues self) /\
  Forall (fun ue => 0 < avg_throughput ue) us /\
  Forall (fun ue => 0 < distance ue) us /\
  Forall (histories_length k) us.

(** The terminal at position [i] after a step that gave it the bandwidth
    [bw] and the fading sample [fading]: the link phase, then the metrics
    phase. *)
Definition next_ue (self : FiveGSimulator) (fading : R) (ue : UE) (bw : R)
    : UE :=
  let snr_db := snr_db_of self fading ue in
  metrics_ue (append_snr ue snr_db) bw (snr_lin_of snr_db).

(** Concrete random outcomes, for running the model on an example: raw
    draws 0, 100, 200, ... put the terminals at 50 m, 150 m, 250 m, ...;
    every Rayleigh sample is 1. *)
Definition demo_draws : nat -> Z := fun i => (100 * Z.of_nat i)%Z.
Definition demo_fading : nat -> nat -> R := fun _ _ => 1.

(** The scenario of an unrecognised scheduler string: the defaults with
    [scheduler="foo"]. *)
Definition foo_sim : FiveGSimulator :=
  FiveGSimulator_init 5 20e6 43 7 2 "foo" 50 "output" demo_draws.

(** Invalid configurations: a step count of 0, and a negative bandwidth
    over two steps. *)
Definition no_steps_sim : FiveGSimulator :=
  FiveGSimulator_init 5 20e6 43 7 2 "equal" 0 "output" demo_draws.

Definition negative_bw_sim : FiveGSimulator :=
  FiveGSimulator_init 2 (-20e6) 43 7 2 "equal" 2 "output" demo_draws.

(** One terminal at 50 m on a narrow band of 1 kHz, one step. *)
Definition narrow_sim : FiveGSimulator :=
  FiveGSimulator_init 1 1000 43 7 2 "equal" 1 "output" demo_draws.

(** ** Further vocabulary for the run *)

(** The terminals an outcome leaves behind, whether the run completed or
    raised. *)
Definition terminals_of (o : outcome) : list UE :=
  match o with
  | Ok us => us
  | Raised _ us => us
  end.

(** The simulator with its terminals replaced: the object as a run has
    mutated it. *)
Definition set_ues (self : FiveGSimulator) (us : list UE) : FiveGSimulator :=
  {| num_ues := num_ues self;
     total_bw_hz := total_bw_hz self;
     tx_power_dbm := tx_power_dbm self;
     noise_fig_db := noise_fig_db self;
     mimo_gain := mimo_gain self;
     scheduler := scheduler self;
     sim_steps := sim_steps self;
     out_dir := out_dir self;
     ues := us |}.

(** The same simulator under another scheduler selector. *)
Definition with_scheduler (self : FiveGSimulator) (s : string)
    : FiveGSimulator :=
  {| num_ues := num_ues self;
     total_bw_hz := total_bw_hz self;
     tx_power_dbm := tx_power_dbm self;
     noise_fig_db := noise_fig_db self;
     mimo_gain := mimo_gain self;
     scheduler := s;
     sim_steps := sim_steps self;
     out_dir := out_dir self;
     ues := ues self |}.

(** The Rayleigh samples that are left once [n] steps have drawn theirs. *)
Definition shift (fading : nat -> nat -> R) (n : nat) : nat -> nat -> R :=
  fun t => fading (n + t)%nat.

(** The moving average that line 115 builds from a throughput history,
    started from the [1e-6] of [UE.__init__]. *)
Definition ema_of_history (h : list R) : R :=
  fold_left (fun a s => 0.9 * a + 0.1 * s) h 1e-6.

(** The capacities of line 103, one per allocated bandwidth and linear
    SNR. *)
Definition realised_caps (bw snrs : list R) : list R :=
  map (fun p : R * R => cap_bps_of (fst p) (snd p)) (combine bw snrs).

(** A terminal and a later state of it: the same identifier at the same
    distance. *)
Definition same_terminal (ue ue' : UE) : Prop :=
  id ue' = id ue /\ distance ue' = distance ue.

(** A terminal and a later state of it: every history has only grown at
    its end. *)
Definition history_extends (ue ue' : UE) : Prop :=
  (exists t, throughput_history ue' = throughput_history ue ++ t) /\
  (exists l, latency_history ue' = latency_history ue ++ l) /\
  (exists s, snr_history ue' = snr_history ue ++ s).

(** The least latency a terminal can record: propagation and processing
    delay, in milliseconds. *)
Definition latency_floor_ms (ue : UE) : R :=
  (distance ue / 3e8 + 1e-3) * 1000.

(** The latency that lines 109 to 111 derive from a throughput sample in
    Mbps (the capacity in bits per second is the sample times 1e6). *)
Definition latency_of_throughput (ue : UE) (throughput_mbps : R) : R :=
  (1e6 / (throughput_mbps * 1e6 + 1e-9) + distance ue / 3e8 + 1e-3) * 1000.

(** The throughput and latency histories of a terminal agree, sample by
    sample. *)
Definition histories_consistent (ue : UE) : Prop :=
  Forall2 (fun thr lat => lat = latency_of_throughput ue thr)
          (throughput_history ue) (latency_history ue).

(** ** save_results: the summary table (source lines 123 to 130)

    [np.mean] is the sum over the count.  [np.median] is the middle sample
    of the sorted samples, or the mean of the two middle ones when their
    number is even.  On an empty history numpy yields NaN for both; the
    model's values are meaningful for non-empty histories only.  The plots
    and the CSV file are outside the model. *)

Definition np_mean (xs : list R) : R := sum xs / INR (length xs).

Fixpoint insert_sorted (x : R) (l : list R) : list R :=
  match l with
  | [] => [x]
  | y :: l' => if Rle_dec x y then x :: l else y :: insert_sorted x l'
  end.

Definition np_sort (xs : list R) : list R := fold_right insert_sorted [] xs.

Definition np_median (xs : list R) : R :=
  let s := np_sort xs in
  let n := length xs in
  if Nat.even n
  then (nth (n / 2 - 1) s 0 + nth (n / 2) s 0) / 2
  else nth (n / 2) s 0.

Record SummaryRow : Type := mkRow {
  row_ue : Z;
  mean_throughput_mbps : R;
  median_latency_ms : R;
  mean_snr_db : R
}.

Definition save_results_summary (self : FiveGSimulator) : list SummaryRow :=
  map (fun ue => {| row_ue := id ue;
                    mean_throughput_mbps := np_mean (throughput_history ue);
                    median_latency_ms := np_median (latency_history ue);
                    mean_snr_db := np_mean (snr_history ue) |})
      (ues self).

(** ** Runs that binary64 resolves *)

(** The shares of line 97 are not 0/0. *)
Definition shares_defined (inst_caps : list R) (us : list UE) : Prop :=
  sum (pf_weights inst_caps us) <> 0.

(** A linear SNR that binary64 neither absorbs in [1 + snr_lin] nor
    overflows in [10 ** (snr_db / 10)]. *)
Definition link_resolved (snr_lin : R) : Prop :=
  absorb_threshold < snr_lin <= 1e300.

(** A run whose first [k] steps stay clear of the ends of the binary64
    range: a bandwidth between 1 Hz and 1 THz, terminals within 1000 km,
    and every link of every terminal resolved. *)
Definition well_conditioned (self : FiveGSimulator)
    (fading : nat -> nat -> R) (k : nat) : Prop :=
  1 <= total_bw_hz self <= 1e12 /\
  Forall (fun ue => distance ue <= 1e6) (ues self) /\
  forall t i ue, (t < k)%nat -> nth_error (ues self) i = Some ue ->
    link_resolved (snr_lin_of (snr_db_of self (fading t i) ue)).

(** A valid configuration on which the proportional-fair shares are 0/0:
    two terminals, at 50 m and 150 m, and a transmit power of -300 dBm. *)
Definition starved_pf_sim : FiveGSimulator :=
  FiveGSimulator_init 2 20e6 (-300) 7 2 "pf" 1 "output" demo_draws.

(** A valid configuration whose second step is starved: -30 dBm, with
    Rayleigh samples of 1 in the first step and of 0 afterwards. *)
Definition fading_out_sim : FiveGSimulator :=
  FiveGSimulator_init 2 20e6 (-30) 7 2 "pf" 2 "output" demo_draws.

Definition fade_out : nat -> nat -> R :=
  fun t _ => match t with O => 1 | S _ => 0 end.

(** No terminals under the equal-share scheduler. *)
Definition zero_ues_sim : FiveGSimulator :=
  FiveGSimulator_init 0 20e6 43 7 2 "equal" 50 "output" demo_draws.

(** Validity and freshness of a concrete simulator, by evaluation. *)
Ltac valid_by_evaluation :=
  constructor; simpl; try lia; try lra; auto.

Ltac fresh_by_evaluation :=
  split; [reflexivity | repeat constructor; simpl; lra].

(** * Properties *)

(** ** The primitives on examples *)

Example randint_examples :
  Np.randint 50 500 0 = 50%Z /\ Np.randint 50 500 449 = 499%Z /\
  Np.randint 50 500 450 = 50%Z /\ Np.randint 50 500 (-1) = 499%Z.
Proof. repeat split. Qed.

Example sum_example : sum [1; 2; 3.5] = 6.5.
Proof. unfold sum. simpl. lra. Qed.

Example main_sim_terminals :
  map id (ues (main_sim demo_draws)) = [0; 1; 2; 3; 4]%Z /\
  map distance (ues (main_sim demo_draws)) = [50; 150; 250; 350; 450].
Proof. split; reflexivity. Qed.

Example equal_share_example :
  allocate no_steps_sim [1; 2; 3; 4; 5] (ues no_steps_sim)
  = inr [20e6 / 5; 20e6 / 5; 20e6 / 5; 20e6 / 5; 20e6 / 5].
Proof. reflexivity. Qed.

(** ** Logarithms and powers *)

Lemma ln2_pos : 0 < ln 2.
Proof. rewrite <- ln_1. apply ln_increasing; lra. Qed.

Lemma ln10_pos : 0 < ln 10.
Proof. rewrite <- ln_1. apply ln_increasing; lra. Qed.

Lemma snr_lin_pos (snr_db : R) : 0 < snr_lin_of snr_db.
Proof. unfold snr_lin_of, Np.power, Rpower. apply exp_pos. Qed.

Lemma log2_1p_pos (s : R) : 0 < s -> 0 < Np.log2 (1 + s).
Proof.
  intros Hs. unfold Np.log2. apply Rdiv_lt_0_compat.
  - rewrite <- ln_1. apply ln_increasing; lra.
  - apply ln2_pos.
Qed.

Lemma log2_1 : Np.log2 1 = 0.
Proof. unfold Np.log2. rewrite ln_1. unfold Rdiv. ring. Qed.

Lemma absorb_threshold_pos : 0 < absorb_threshold.
Proof. unfold absorb_threshold. apply Rinv_0_lt_compat. lra. Qed.

(** ** Absorption in [1 + snr_lin] *)

Lemma one_plus_absorbed (s : R) : s <= absorb_threshold -> one_plus s = 1.
Proof.
  intros H. unfold one_plus.
  destruct (Rle_dec s absorb_threshold); [reflexivity | contradiction].
Qed.

Lemma one_plus_resolved (s : R) : absorb_threshold < s -> one_plus s = 1 + s.
Proof.
  intros H. unfold one_plus.
  destruct (Rle_dec s absorb_threshold); [lra | reflexivity].
Qed.

Lemma one_plus_ge_1 (s : R) : 1 <= one_plus s.
Proof.
  pose proof absorb_threshold_pos. unfold one_plus.
  destruct (Rle_dec s absorb_threshold); lra.
Qed.


Lemma log2_one_plus_nonneg (s : R) : 0 <= Np.log2 (one_plus s).
Proof.
  pose proof absorb_threshold_pos. unfold one_plus.
  destruct (Rle_dec s absorb_threshold).
  - rewrite log2_1. lra.
  - apply Rlt_le, log2_1p_pos. lra.
Qed.

Lemma log2_one_plus_pos (s : R) :
  absorb_threshold < s -> 0 < Np.log2 (one_plus s).
Proof.
  intros H. pose proof absorb_threshold_pos.
  rewrite one_plus_resolved by assumption. apply log2_1p_pos. lra.
Qed.

Lemma log2_one_plus_absorbed (s : R) :
  s <= absorb_threshold -> Np.log2 (one_plus s) = 0.
Proof. intros H. rewrite one_plus_absorbed by assumption. apply log2_1. Qed.

Lemma cap_of_nonneg (self : FiveGSimulator) (s : R) :
  0 <= total_bw_hz self -> 0 <= cap_of self s.
Proof.
  intros HB. unfold cap_of.
  apply Rmult_le_pos; [assumption | apply log2_one_plus_nonneg].
Qed.

Lemma cap_of_pos (self : FiveGSimulator) (s : R) :
  0 < total_bw_hz self -> absorb_threshold < s -> 0 < cap_of self s.
Proof.
  intros HB Hs. unfold cap_of.
  apply Rmult_lt_0_compat; [assumption | now apply log2_one_plus_pos].
Qed.

Lemma cap_bps_nonneg (bw s : R) : 0 <= bw -> 0 <= cap_bps_of bw s.
Proof.
  intros Hb. unfold cap_bps_of.
  apply Rmult_le_pos; [assumption | apply log2_one_plus_nonneg].
Qed.

Lemma cap_bps_pos (bw s : R) :
  0 < bw -> absorb_threshold < s -> 0 < cap_bps_of bw s.
Proof.
  intros Hb Hs. unfold cap_bps_of.
  apply Rmult_lt_0_compat; [assumption | now apply log2_one_plus_pos].
Qed.

Lemma throughput_nonneg (bw s : R) : 0 <= bw -> 0 <= throughput_mbps_of bw s.
Proof.
  intros Hb. unfold throughput_mbps_of.
  pose proof (cap_bps_nonneg bw s Hb).
  apply Rmult_le_pos; [assumption|]. apply Rlt_le, Rinv_0_lt_compat. lra.
Qed.

Lemma throughput_pos (bw s : R) :
  0 < bw -> absorb_threshold < s -> 0 < throughput_mbps_of bw s.
Proof.
  intros Hb Hs. unfold throughput_mbps_of.
  apply Rdiv_lt_0_compat; [now apply cap_bps_pos | lra].
Qed.


Lemma share_strictly_monotone (c1 c2 a W B : R) :
  c1 < c2 -> 0 < a -> 0 < W -> 0 < B ->
  c1 / a / W * B < c2 / a / W * B.
Proof.
  intros Hc Ha HW HB.
  assert (0 < / a * / W * B) as Hk.
  { apply Rmult_lt_0_compat; [|assumption].
    apply Rmult_lt_0_compat; now apply Rinv_0_lt_compat. }
  unfold Rdiv.
  replace (c1 * / a * / W * B) with (/ a * / W * B * c1) by ring.
  replace (c2 * / a * / W * B) with (/ a * / W * B * c2) by ring.
  now apply Rmult_lt_compat_l.
Qed.

(** ** Logarithms to base 10, and the size of the SNR *)

Lemma log10_mult (x y : R) :
  0 < x -> 0 < y -> Np.log10 (x * y) = Np.log10 x + Np.log10 y.
Proof.
  intros Hx Hy. unfold Np.log10. rewrite ln_mult by assumption.
  pose proof ln10_pos. field. lra.
Qed.

Lemma log10_10 : Np.log10 10 = 1.
Proof. unfold Np.log10. pose proof ln10_pos. field. lra. Qed.

Lemma log10_increasing (x y : R) :
  0 < x -> x < y -> Np.log10 x < Np.log10 y.
Proof.
  intros Hx Hxy. unfold Np.log10. pose proof ln10_pos as H10.
  apply Rmult_lt_compat_r; [now apply Rinv_0_lt_compat|].
  now apply ln_increasing.
Qed.

Lemma log2_increasing (x y : R) :
  0 < x -> x < y -> Np.log2 x < Np.log2 y.
Proof.
  intros Hx Hxy. unfold Np.log2. pose proof ln2_pos as H2.
  apply Rmult_lt_compat_r; [now apply Rinv_0_lt_compat|].
  now apply ln_increasing.
Qed.

Lemma snr_lin_increasing (x y : R) : x < y -> snr_lin_of x < snr_lin_of y.
Proof.
  intros H. unfold snr_lin_of, Np.power, Rpower.
  apply exp_increasing. pose proof ln10_pos.
  apply Rmult_lt_compat_r; lra.
Qed.

Lemma log10_monotone (x y : R) : 0 < x -> x <= y -> Np.log10 x <= Np.log10 y.
Proof.
  intros Hx [Hlt | ->]; [|lra]. left. now apply log10_increasing.
Qed.

Lemma log10_pow (n : nat) : Np.log10 (10 ^ n) = INR n.
Proof.
  induction n as [|n IH].
  - unfold Np.log10. simpl. rewrite ln_1. lra.
  - rewrite S_INR. change (10 ^ S n) with (10 * 10 ^ n).
    rewrite log10_mult; [rewrite log10_10, IH; lra | lra |].
    apply pow_lt. lra.
Qed.

Lemma log10_inv_pow (n : nat) : Np.log10 (/ 10 ^ n) = - INR n.
Proof.
  unfold Np.log10. rewrite ln_Rinv by (apply pow_lt; lra).
  pose proof (log10_pow n) as H. unfold Np.log10 in H.
  unfold Rdiv in *. rewrite <- H. ring.
Qed.

(** A number between two powers of ten has its logarithm between the
    exponents. *)
Lemma log10_between (a b : nat) (x : R) :
  10 ^ a <= x <= 10 ^ b ->
  IZR (Z.of_nat a) <= Np.log10 x <= IZR (Z.of_nat b).
Proof.
  intros [Ha Hb]. assert (0 < 10 ^ a) as Hpos by (apply pow_lt; lra).
  rewrite <- !INR_IZR_INZ, <- (log10_pow a), <- (log10_pow b).
  split; apply log10_monotone; lra.
Qed.

(** The loss at the reference distance, at 3.5 GHz, is between 40 dB and
    60 dB. *)
Lemma reference_loss_bounds :
  2 <= Np.log10 (4 * Np.pi * 1 * f_default / 3e8) <= 3.
Proof.
  pose proof PI_4 as H4. pose proof PI2_3_2 as H3.
  unfold Np.pi, f_default.
  apply (log10_between 2 3). lra.
Qed.

(** The SNR in dB, term by term. *)
Lemma snr_db_terms (self : FiveGSimulator) (fad : R) (ue : UE) :
  snr_db_of self fad ue
  = tx_power_dbm self
    - 20 * Np.log10 (4 * Np.pi * 1 * f_default / 3e8)
    - 30 * Np.log10 (distance ue / 1)
    + 20 * Np.log10 (fad + 1e-9)
    + 10 * Np.log10 (mimo_gain self)
    + 174 - 10 * Np.log10 (total_bw_hz self) - noise_fig_db self.
Proof. unfold snr_db_of, path_loss_db, noise_power_dbm. cbv zeta. lra. Qed.

(** From bounds on the four logarithms, bounds on the SNR in dB. *)
Lemma snr_db_bounds (self : FiveGSimulator) (fad : R) (ue : UE)
    (dl dh fl fh ml mh bl bh : R) :
  dl <= Np.log10 (distance ue / 1) <= dh ->
  fl <= Np.log10 (fad + 1e-9) <= fh ->
  ml <= Np.log10 (mimo_gain self) <= mh ->
  bl <= Np.log10 (total_bw_hz self) <= bh ->
  tx_power_dbm self - noise_fig_db self + 114
    - 30 * dh + 20 * fl + 10 * ml - 10 * bh
  <= snr_db_of self fad ue
  <= tx_power_dbm self - noise_fig_db self + 134
    - 30 * dl + 20 * fh + 10 * mh - 10 * bl.
Proof.
  intros Hd Hf Hm Hb. rewrite snr_db_terms.
  pose proof reference_loss_bounds as H0. lra.
Qed.

Lemma snr_lin_monotone (x y : R) : x <= y -> snr_lin_of x <= snr_lin_of y.
Proof.
  intros [H | ->]; [|lra]. left. now apply snr_lin_increasing.
Qed.

Lemma snr_lin_of_tens (n : nat) : snr_lin_of (10 * INR n) = 10 ^ n.
Proof.
  unfold snr_lin_of, Np.power.
  replace (10 * INR n / 10) with (INR n) by lra.
  apply Rpower_pow. lra.
Qed.

Lemma snr_lin_of_minus_tens (n : nat) : snr_lin_of (- (10 * INR n)) = / 10 ^ n.
Proof.
  unfold snr_lin_of, Np.power.
  replace (- (10 * INR n) / 10) with (- INR n) by lra.
  rewrite Rpower_Ropp, Rpower_pow by lra. reflexivity.
Qed.

(** At -160 dB and below the linear SNR is absorbed in [1 + snr_lin]; at
    -150 dB and above it is not; up to 3000 dB it does not overflow. *)
Lemma snr_absorbed (snr_db : R) :
  snr_db <= -160 -> snr_lin_of snr_db <= absorb_threshold.
Proof.
  intros H. apply Rle_trans with (snr_lin_of (- (10 * INR 16))).
  - apply snr_lin_monotone. simpl. lra.
  - rewrite snr_lin_of_minus_tens. unfold absorb_threshold. lra.
Qed.

Lemma snr_resolved (snr_db : R) :
  -150 <= snr_db <= 3000 -> link_resolved (snr_lin_of snr_db).
Proof.
  intros [Hlo Hhi]. split.
  - apply Rlt_le_trans with (snr_lin_of (- (10 * INR 15))).
    + rewrite snr_lin_of_minus_tens. unfold absorb_threshold. lra.
    + apply snr_lin_monotone. simpl. lra.
  - apply Rle_trans with (snr_lin_of (10 * INR 300)).
    + apply snr_lin_monotone. rewrite INR_IZR_INZ. simpl. lra.
    + rewrite snr_lin_of_tens. lra.
Qed.

(** The path loss, and with it the SNR, as the distance grows. *)
Lemma path_loss_db_lt (d1 d2 f : R) :
  0 < d1 -> d1 < d2 -> path_loss_db d1 f < path_loss_db d2 f.
Proof.
  intros H1 H12. unfold path_loss_db.
  assert (Np.log10 (d1 / 1) < Np.log10 (d2 / 1))
    by (apply log10_increasing; lra).
  lra.
Qed.

Lemma snr_db_closer (self : FiveGSimulator) (fad : R) (near far : UE) :
  0 < distance near -> distance near < distance far ->
  snr_db_of self fad far < snr_db_of self fad near.
Proof.
  intros Hn Hnf. unfold snr_db_of.
  pose proof (path_loss_db_lt _ _ f_default Hn Hnf). lra.
Qed.

Lemma snr_db_same_distance (self : FiveGSimulator) (fad : R) (ue ue' : UE) :
  distance ue' = distance ue ->
  snr_db_of self fad ue' = snr_db_of self fad ue.
Proof. intros H. unfold snr_db_of. now rewrite H. Qed.

(** The logarithm of [1 + snr_lin] grows strictly once the larger SNR is
    resolved, and never shrinks. *)
Lemma log2_one_plus_increasing (s1 s2 : R) :
  s1 < s2 -> absorb_threshold < s2 ->
  Np.log2 (one_plus s1) < Np.log2 (one_plus s2).
Proof.
  intros H12 H2. pose proof absorb_threshold_pos as Ht.
  pose proof (one_plus_ge_1 s1) as H1.
  rewrite (one_plus_resolved s2) by assumption.
  apply log2_increasing; [lra|].
  unfold one_plus. destruct (Rle_dec s1 absorb_threshold); lra.
Qed.


(** The fading term for samples between 0.001 and 9, and at 0. *)
Lemma fading_log_bounds (fad : R) :
  1e-3 <= fad <= 9 -> -3 <= Np.log10 (fad + 1e-9) <= 1.
Proof.
  intros [Hlo Hhi]. split.
  - replace (-3) with (- INR 3) by (simpl; lra).
    rewrite <- (log10_inv_pow 3).
    apply log10_monotone; [apply Rinv_0_lt_compat; lra | lra].
  - apply Rle_trans with (Np.log10 10); [|rewrite log10_10; lra].
    apply log10_monotone; lra.
Qed.

Lemma fading_log_unit : 0 <= Np.log10 (1 + 1e-9) <= 1.
Proof. apply (log10_between 0 1). lra. Qed.

Lemma fading_log_floor : Np.log10 (0 + 1e-9) = -9.
Proof.
  replace (0 + 1e-9) with (/ 10 ^ 9) by lra.
  rewrite log10_inv_pow. simpl. lra.
Qed.

(** The SNR in dB of a terminal between 10 m and 1 km, on a band between
    10 MHz and 100 MHz with a MIMO gain factor between 1 and 10: within
    -56 dB and +44 dB of transmit power minus noise figure plus the fading
    term. *)
Lemma snr_db_window (self : FiveGSimulator) (fad : R) (ue : UE) :
  10 <= distance ue <= 1000 ->
  1 <= mimo_gain self <= 10 ->
  1e7 <= total_bw_hz self <= 1e8 ->
  tx_power_dbm self - noise_fig_db self - 56 + 20 * Np.log10 (fad + 1e-9)
  <= snr_db_of self fad ue
  <= tx_power_dbm self - noise_fig_db self + 44 + 20 * Np.log10 (fad + 1e-9).
Proof.
  intros Hd Hm Hb.
  pose proof (snr_db_bounds self fad ue 1 3
                (Np.log10 (fad + 1e-9)) (Np.log10 (fad + 1e-9)) 0 1 7 8) as H.
  destruct H as [Hlo Hhi].
  - apply (log10_between 1 3). lra.
  - lra.
  - apply (log10_between 0 1). lra.
  - apply (log10_between 7 8). lra.
  - lra.
Qed.

(** Such a link is resolved when transmit power minus noise figure is
    between -30 dB and 100 dB and the Rayleigh sample between 0.001 and
    9. *)
Lemma typical_link_resolved (self : FiveGSimulator) (fad : R) (ue : UE) :
  10 <= distance ue <= 1000 ->
  1 <= mimo_gain self <= 10 ->
  1e7 <= total_bw_hz self <= 1e8 ->
  -30 <= tx_power_dbm self - noise_fig_db self <= 100 ->
  1e-3 <= fad <= 9 ->
  link_resolved (snr_lin_of (snr_db_of self fad ue)).
Proof.
  intros Hd Hm Hb Ht Hf. apply snr_resolved.
  pose proof (fading_log_bounds fad Hf) as HL.
  pose proof (snr_db_window self fad ue Hd Hm Hb) as H. lra.
Qed.

(** ** Python's [sum] *)

Lemma fold_left_Rplus (xs : list R) (a : R) :
  fold_left Rplus xs a = a + fold_left Rplus xs 0.
Proof.
  revert a. induction xs as [|x xs IH]; intros a; simpl.
  - lra.
  - rewrite (IH (a + x)), (IH (0 + x)). lra.
Qed.

Lemma sum_cons (x : R) (xs : list R) : sum (x :: xs) = x + sum xs.
Proof. unfold sum. simpl. rewrite fold_left_Rplus. lra. Qed.

Lemma sum_repeat (x : R) (n : nat) : sum (repeat x n) = INR n * x.
Proof.
  induction n as [|n IH].
  - simpl. unfold sum. simpl. lra.
  - change (repeat x (S n)) with (x :: repeat x n).
    rewrite sum_cons, IH, S_INR. lra.
Qed.

Lemma sum_nonneg (xs : list R) : Forall (fun x => 0 <= x) xs -> 0 <= sum xs.
Proof.
  induction 1 as [|x xs Hx _ IH].
  - unfold sum. simpl. lra.
  - rewrite sum_cons. lra.
Qed.

Lemma sum_zero_all_zero (xs : list R) :
  Forall (fun x => 0 <= x) xs -> sum xs = 0 -> Forall (fun x => x = 0) xs.
Proof.
  induction 1 as [|x xs Hx Hxs IH]; intros Hs.
  - constructor.
  - rewrite sum_cons in Hs. pose proof (sum_nonneg xs Hxs).
    constructor; [lra | apply IH; lra].
Qed.


Lemma sum_pos (xs : list R) :
  xs <> [] -> Forall (fun x => 0 < x) xs -> 0 < sum xs.
Proof.
  intros Hne Hall. induction Hall as [|x xs Hx Hxs IH].
  - now contradiction Hne.
  - rewrite sum_cons. destruct xs as [|y ys].
    + unfold sum. simpl. lra.
    + assert (0 < sum (y :: ys)) by (apply IH; discriminate). lra.
Qed.

Lemma sum_map_share (W B : R) (ws : list R) :
  sum (map (fun w => w / W * B) ws) = sum ws / W * B.
Proof.
  induction ws as [|w ws IH]; simpl.
  - unfold sum. simpl. unfold Rdiv. ring.
  - rewrite !sum_cons, IH. unfold Rdiv. ring.
Qed.

(** ** Lists by position *)

Lemma Forall_by_nth {A : Type} (P : A -> Prop) (xs : list A) :
  (forall i x, nth_error xs i = Some x -> P x) -> Forall P xs.
Proof.
  intros H. apply Forall_forall. intros x Hin.
  destruct (In_nth_error _ _ Hin) as [i Hi]. eauto.
Qed.

Lemma Forall_nth_error_inv {A : Type} (P : A -> Prop) (xs : list A) i x :
  Forall P xs -> nth_error xs i = Some x -> P x.
Proof.
  intros H Hi. rewrite Forall_forall in H. eapply H, nth_error_In, Hi.
Qed.

Lemma Forall2_by_nth {A B : Type} (P : A -> B -> Prop) (xs : list A)
    (ys : list B) :
  length xs = length ys ->
  (forall i x y, nth_error xs i = Some x -> nth_error ys i = Some y -> P x y) ->
  Forall2 P xs ys.
Proof.
  revert ys. induction xs as [|x xs IH]; intros [|y ys] Hlen H;
    simpl in Hlen; try discriminate.
  - constructor.
  - constructor.
    + apply (H 0%nat); reflexivity.
    + apply IH; [lia|]. intros i a b Ha Hb. apply (H (S i)); assumption.
Qed.

Lemma nth_error_defined {A : Type} (xs : list A) (i : nat) :
  (i < length xs)%nat -> exists x, nth_error xs i = Some x.
Proof.
  intros H. destruct (nth_error xs i) eqn:E; [eauto|].
  apply nth_error_None in E. lia.
Qed.

(** ** The link phase, position by position *)

Lemma link_phase_length (self : FiveGSimulator) (f : nat -> R) (i : nat)
    (us : list UE) :
  length (linked (link_phase self f i us)) = length us /\
  length (snrs_linear (link_phase self f i us)) = length us /\
  length (inst_caps (link_phase self f i us)) = length us.
Proof.
  revert i. induction us as [|ue us IH]; intros i; simpl.
  - auto.
  - destruct (IH (S i)) as (H1 & H2 & H3). rewrite H1, H2, H3. auto.
Qed.

Lemma link_phase_nth (self : FiveGSimulator) (f : nat -> R) (i0 : nat)
    (us : list UE) (i : nat) (ue : UE) :
  nth_error us i = Some ue ->
  nth_error (linked (link_phase self f i0 us)) i
    = Some (append_snr ue (snr_db_of self (f (i0 + i)%nat) ue)) /\
  nth_error (snrs_linear (link_phase self f i0 us)) i
    = Some (snr_lin_of (snr_db_of self (f (i0 + i)%nat) ue)) /\
  nth_error (inst_caps (link_phase self f i0 us)) i
    = Some (cap_of self (snr_lin_of (snr_db_of self (f (i0 + i)%nat) ue))).
Proof.
  revert i0 i. induction us as [|u us IH]; intros i0 [|i] H;
    simpl in H; try discriminate.
  - injection H as ->. simpl. rewrite Nat.add_0_r. auto.
  - simpl. replace (i0 + S i)%nat with (S i0 + i)%nat by lia.
    now apply IH.
Qed.

(** ** The metrics phase, position by position *)

Lemma metrics_phase_length (us : list UE) (bw ss cs : list R) :
  length (metrics_phase us bw ss cs) = length us.
Proof.
  revert bw ss cs. induction us as [|ue us IH]; intros bw ss cs.
  - reflexivity.
  - destruct bw, ss, cs; simpl; try reflexivity. now rewrite IH.
Qed.

Lemma metrics_phase_nth (us : list UE) (bw ss cs : list R) (i : nat)
    (ue : UE) (b s c : R) :
  nth_error us i = Some ue -> nth_error bw i = Some b ->
  nth_error ss i = Some s -> nth_error cs i = Some c ->
  nth_error (metrics_phase us bw ss cs) i = Some (metrics_ue ue b s).
Proof.
  revert bw ss cs i.
  induction us as [|u us IH]; intros [|b0 bw] [|s0 ss] [|c0 cs] [|i];
    simpl; intros Hu Hb Hs Hc; try discriminate.
  - now inversion Hu; inversion Hb; inversion Hs.
  - now apply IH.
Qed.

(** ** The two schedulers *)

Lemma pf_weights_nth (caps : list R) (us : list UE) (i : nat) :
  nth_error (pf_weights caps us) i =
  match nth_error caps i, nth_error us i with
  | Some c, Some u => Some (c / (avg_throughput u + 1e-9))
  | _, _ => None
  end.
Proof.
  unfold pf_weights. revert us i.
  induction caps as [|c caps IH]; intros [|u us] [|i]; simpl; auto.
  - now destruct (nth_error caps i).
Qed.

Lemma pf_weights_length (caps : list R) (us : list UE) :
  length caps = length us -> length (pf_weights caps us) = length us.
Proof.
  intros H. unfold pf_weights. rewrite length_map, length_combine. lia.
Qed.

Lemma allocate_equal (self : FiveGSimulator) (caps : list R) (us : list UE) :
  scheduler self = "equal"%string -> num_ues self <> 0%Z ->
  allocate self caps us
  = inr (repeat (total_bw_hz self / IZR (num_ues self))
                (Z.to_nat (num_ues self))).
Proof.
  intros Hs Hn. unfold allocate. rewrite Hs. simpl.
  destruct (Z.eqb_spec (num_ues self) 0); [contradiction | reflexivity].
Qed.

Lemma allocate_pf (self : FiveGSimulator) (caps : list R) (us : list UE) :
  scheduler self = "pf"%string ->
  allocate self caps us
  = inr (map (fun w => w / sum (pf_weights caps us) * total_bw_hz self)
             (pf_weights caps us)).
Proof. intros Hs. unfold allocate. rewrite Hs. reflexivity. Qed.

Lemma allocate_unrecognised (self : FiveGSimulator) (caps : list R)
    (us : list UE) :
  ~ recognised self ->
  allocate self caps us = inl (ValueError "Scheduler must be 'equal' or 'pf'").
Proof.
  intros H. unfold allocate.
  destruct (String.eqb_spec (scheduler self) "equal") as [E|_].
  - exfalso. apply H. now left.
  - destruct (String.eqb_spec (scheduler self) "pf") as [E|_].
    + exfalso. apply H. now right.
    + reflexivity.
Qed.

(** ** One step from terminals with positive averages *)

Section Step.

Variable self : FiveGSimulator.
Variable f : nat -> R.
Variable us : list UE.

Hypothesis Hvalid : valid_config self.
Hypothesis Hlen : length us = Z.to_nat (num_ues self).
Hypothesis Havg : Forall (fun ue => 0 < avg_throughput ue) us.

Let l := link_phase self f 0 us.

Lemma inst_caps_nonneg : Forall (fun c => 0 <= c) (inst_caps l).
Proof.
  apply Forall_by_nth. intros i c Hc.
  destruct (link_phase_length self f 0 us) as (_ & _ & Hl).
  destruct (nth_error_defined us i) as [ue Hue].
  { rewrite <- Hl. apply nth_error_Some. fold l. congruence. }
  destruct (link_phase_nth self f 0 us i ue Hue) as (_ & _ & H).
  fold l in H. rewrite H in Hc. injection Hc as <-.
  apply cap_of_nonneg. apply Rlt_le, Hvalid.
Qed.

Lemma linked_avg_positive :
  Forall (fun ue => 0 < avg_throughput ue) (linked l).
Proof.
  apply Forall_by_nth. intros i u Hu.
  destruct (link_phase_length self f 0 us) as (Hl & _ & _).
  destruct (nth_error_defined us i) as [ue Hue].
  { rewrite <- Hl. apply nth_error_Some. fold l. congruence. }
  destruct (link_phase_nth self f 0 us i ue Hue) as (H & _ & _).
  fold l in H. rewrite H in Hu. injection Hu as <-. simpl.
  eapply Forall_nth_error_inv in Havg; [exact Havg | exact Hue].
Qed.

Lemma weights_nonneg :
  Forall (fun w => 0 <= w) (pf_weights (inst_caps l) (linked l)).
Proof.
  apply Forall_by_nth. intros i w Hw. rewrite pf_weights_nth in Hw.
  destruct (nth_error (inst_caps l) i) as [c|] eqn:Ec; [|discriminate].
  destruct (nth_error (linked l) i) as [u|] eqn:Eu; [|discriminate].
  injection Hw as <-.
  pose proof (Forall_nth_error_inv _ _ _ _ inst_caps_nonneg Ec) as Hc.
  pose proof (Forall_nth_error_inv _ _ _ _ linked_avg_positive Eu) as Ha.
  simpl in Hc, Ha. apply Rmult_le_pos; [assumption|].
  apply Rlt_le, Rinv_0_lt_compat. lra.
Qed.

Lemma weights_length :
  length (pf_weights (inst_caps l) (linked l)) = length us.
Proof.
  destruct (link_phase_length self f 0 us) as (H1 & _ & H3). fold l in H1, H3.
  rewrite pf_weights_length; congruence.
Qed.

Lemma num_ues_as_real : INR (Z.to_nat (num_ues self)) = IZR (num_ues self).
Proof.
  rewrite INR_IZR_INZ, Z2Nat.id; [reflexivity|].
  pose proof (valid_num_ues _ Hvalid). lia.
Qed.

(** The allocation exists, with one entry per terminal, none negative in
    the model. *)
Lemma alloc_defined :
  exists bw,
    bw_alloc_of self f us = inr bw /\
    length bw = length us /\
    Forall (fun b => 0 <= b) bw.
Proof.
  pose proof (valid_num_ues _ Hvalid) as Hn.
  pose proof (valid_total_bw _ Hvalid) as HB.
  assert (0 < IZR (num_ues self)) as HnR by now apply IZR_lt.
  unfold bw_alloc_of. fold l.
  destruct (valid_scheduler _ Hvalid) as [Hs|Hs].
  - rewrite allocate_equal by (assumption || lia).
    eexists. split; [reflexivity|]. split.
    + now rewrite repeat_length.
    + apply Forall_forall. intros b Hb. apply repeat_spec in Hb. subst b.
      apply Rlt_le. now apply Rdiv_lt_0_compat.
  - rewrite allocate_pf by assumption.
    eexists. split; [reflexivity|]. split.
    + rewrite length_map. apply weights_length.
    + pose proof weights_nonneg as Hws.
      pose proof (sum_nonneg _ Hws) as HW.
      apply Forall_forall. intros b Hb. apply in_map_iff in Hb.
      destruct Hb as (w & <- & Hw).
      destruct (Req_dec (sum (pf_weights (inst_caps l) (linked l))) 0)
        as [E|E].
      * pose proof (sum_zero_all_zero _ Hws E) as Hz.
        rewrite Forall_forall in Hz. rewrite (Hz w Hw).
        unfold Rdiv. rewrite !Rmult_0_l. lra.
      * rewrite Forall_forall in Hws. specialize (Hws w Hw).
        apply Rmult_le_pos; [|lra].
        apply Rmult_le_pos; [assumption|].
        apply Rlt_le, Rinv_0_lt_compat. lra.
Qed.

(** Unless the shares are 0/0, they add up to the total bandwidth. *)
Lemma alloc_sum (bw : list R) :
  (scheduler self = "pf"%string -> shares_defined (inst_caps l) (linked l)) ->
  bw_alloc_of self f us = inr bw ->
  sum bw = total_bw_hz self.
Proof.
  intros Hdef. unfold bw_alloc_of. fold l.
  pose proof (valid_num_ues _ Hvalid) as Hn.
  assert (0 < IZR (num_ues self)) as HnR by now apply IZR_lt.
  destruct (valid_scheduler _ Hvalid) as [Hs|Hs].
  - rewrite allocate_equal by (assumption || lia). intros [= <-].
    rewrite sum_repeat, num_ues_as_real. field. lra.
  - rewrite allocate_pf by assumption. intros [= <-].
    specialize (Hdef Hs). unfold shares_defined in Hdef.
    rewrite sum_map_share. field. exact Hdef.
Qed.

(** The step completes, and the terminal at every position is the old one
    put through the link and metrics phases with its own bandwidth. *)
Lemma step_defined :
  exists bw us',
    bw_alloc_of self f us = inr bw /\
    step self f us = Ok us' /\
    length us' = length us /\
    forall i ue, nth_error us i = Some ue ->
      exists b, nth_error bw i = Some b /\ 0 <= b /\
                nth_error us' i = Some (next_ue self (f i) ue b).
Proof.
  destruct alloc_defined as (bw & Hbw & Hlbw & Hpos).
  destruct (link_phase_length self f 0 us) as (H1 & H2 & H3).
  fold l in H1, H2, H3.
  exists bw, (metrics_phase (linked l) bw (snrs_linear l) (inst_caps l)).
  split; [assumption|]. split; [|split].
  - unfold step. fold l. unfold bw_alloc_of in Hbw. fold l in Hbw.
    now rewrite Hbw.
  - now rewrite metrics_phase_length.
  - intros i ue Hue.
    destruct (nth_error_defined bw i) as [b Hb].
    { rewrite Hlbw. apply nth_error_Some. congruence. }
    exists b. split; [assumption|]. split.
    + eapply Forall_nth_error_inv in Hpos; [exact Hpos | exact Hb].
    + destruct (link_phase_nth self f 0 us i ue Hue) as (Ha & Hb' & Hc).
      fold l in Ha, Hb', Hc. simpl in Ha, Hb', Hc.
      unfold next_ue. eapply metrics_phase_nth; eassumption.
Qed.

(** *** When every link of the step is resolved *)

Hypothesis Hres : forall i ue, nth_error us i = Some ue ->
  absorb_threshold < snr_lin_of (snr_db_of self (f i) ue).

Lemma inst_caps_positive : Forall (fun c => 0 < c) (inst_caps l).
Proof.
  apply Forall_by_nth. intros i c Hc.
  destruct (link_phase_length self f 0 us) as (_ & _ & Hl).
  destruct (nth_error_defined us i) as [ue Hue].
  { rewrite <- Hl. apply nth_error_Some. fold l. congruence. }
  destruct (link_phase_nth self f 0 us i ue Hue) as (_ & _ & H).
  fold l in H. rewrite H in Hc. injection Hc as <-. simpl.
  apply cap_of_pos; [apply Hvalid | now apply Hres].
Qed.

Lemma weights_positive :
  Forall (fun w => 0 < w) (pf_weights (inst_caps l) (linked l)).
Proof.
  apply Forall_by_nth. intros i w Hw. rewrite pf_weights_nth in Hw.
  destruct (nth_error (inst_caps l) i) as [c|] eqn:Ec; [|discriminate].
  destruct (nth_error (linked l) i) as [u|] eqn:Eu; [|discriminate].
  injection Hw as <-.
  pose proof (Forall_nth_error_inv _ _ _ _ inst_caps_positive Ec) as Hc.
  pose proof (Forall_nth_error_inv _ _ _ _ linked_avg_positive Eu) as Ha.
  simpl in Hc, Ha. apply Rdiv_lt_0_compat; lra.
Qed.

Lemma total_weight_positive :
  0 < sum (pf_weights (inst_caps l) (linked l)).
Proof.
  apply sum_pos; [|apply weights_positive].
  intros E. pose proof weights_length as H. rewrite E, Hlen in H.
  simpl in H. pose proof (valid_num_ues _ Hvalid). lia.
Qed.

Lemma alloc_resolved :
  exists bw,
    bw_alloc_of self f us = inr bw /\
    length bw = length us /\
    Forall (fun b => 0 < b) bw /\
    sum bw = total_bw_hz self.
Proof.
  destruct alloc_defined as (bw & Hbw & Hlbw & _).
  pose proof total_weight_positive as HW.
  exists bw. split; [assumption|]. split; [assumption|]. split.
  - pose proof (valid_num_ues _ Hvalid) as Hn.
    pose proof (valid_total_bw _ Hvalid) as HB.
    assert (0 < IZR (num_ues self)) as HnR by now apply IZR_lt.
    revert Hbw. unfold bw_alloc_of. fold l.
    destruct (valid_scheduler _ Hvalid) as [Hs|Hs].
    + rewrite allocate_equal by (assumption || lia). intros [= <-].
      apply Forall_forall. intros b Hb. apply repeat_spec in Hb. subst b.
      now apply Rdiv_lt_0_compat.
    + rewrite allocate_pf by assumption. intros [= <-].
      apply Forall_forall. intros b Hb. apply in_map_iff in Hb.
      destruct Hb as (w & <- & Hw).
      pose proof weights_positive as Hws. rewrite Forall_forall in Hws.
      apply Hws in Hw. apply Rmult_lt_0_compat; [|assumption].
      now apply Rdiv_lt_0_compat.
  - apply alloc_sum; [|assumption]. intros _. unfold shares_defined. lra.
Qed.

Lemma step_resolved :
  exists bw us',
    bw_alloc_of self f us = inr bw /\
    sum bw = total_bw_hz self /\
    step self f us = Ok us' /\
    length us' = length us /\
    forall i ue, nth_error us i = Some ue ->
      exists b, nth_error bw i = Some b /\ 0 < b /\
                nth_error us' i = Some (next_ue self (f i) ue b).
Proof.
  destruct alloc_resolved as (bw & Hbw & Hlbw & Hpos & Hsum).
  destruct step_defined as (bw' & us' & Hbw' & Hstep & Hl & Hnth).
  assert (bw' = bw) as -> by congruence.
  exists bw, us'. repeat split; try assumption.
  intros i ue Hue. destruct (Hnth i ue Hue) as (b & Hb & _ & Hn).
  exists b. repeat split; try assumption.
  eapply Forall_nth_error_inv in Hpos; [exact Hpos | exact Hb].
Qed.

End Step.

(** ** What a step does to one terminal *)

Lemma next_ue_avg (self : FiveGSimulator) (fad : R) (ue : UE) (b : R) :
  0 < avg_throughput ue -> 0 <= b ->
  0 < avg_throughput (next_ue self fad ue b).
Proof.
  intros Ha Hb. unfold next_ue. simpl.
  pose proof (throughput_nonneg b (snr_lin_of (snr_db_of self fad ue)) Hb).
  lra.
Qed.

Lemma next_ue_histories (self : FiveGSimulator) (fad : R) (ue : UE) (b : R)
    (k : nat) :
  histories_length k ue -> histories_length (S k) (next_ue self fad ue b).
Proof.
  intros (H1 & H2 & H3). unfold histories_length, next_ue. simpl.
  rewrite !length_app. simpl. lia.
Qed.

Lemma next_ue_ema (self : FiveGSimulator) (fad : R) (ue : UE) (b : R) :
  ema_updated ue (next_ue self fad ue b).
Proof.
  exists (throughput_mbps_of b (snr_lin_of (snr_db_of self fad ue))).
  split; reflexivity.
Qed.

Lemma next_ue_latency (self : FiveGSimulator) (fad : R) (ue : UE) (b : R) :
  latency_history (next_ue self fad ue b)
  = latency_history ue
    ++ [code_latency_ms (distance ue)
          (cap_bps_of b (snr_lin_of (snr_db_of self fad ue)))].
Proof. reflexivity. Qed.

(** ** The loop *)

Lemma run_steps_snoc (self : FiveGSimulator) (fading : nat -> nat -> R)
    (t n : nat) (us : list UE) :
  run_steps self fading t (S n) us =
  match run_steps self fading t n us with
  | Ok us' => step self (fading (t + n)%nat) us'
  | Raised e us' => Raised e us'
  end.
Proof.
  revert t us. induction n as [|n IH]; intros t us.
  - simpl. rewrite Nat.add_0_r. now destruct (step self (fading t) us).
  - change (run_steps self fading t (S (S n)) us) with
      (match step self (fading t) us with
       | Ok us' => run_steps self fading (S t) (S n) us'
       | Raised e us' => Raised e us'
       end).
    change (run_steps self fading t (S n) us) with
      (match step self (fading t) us with
       | Ok us' => run_steps self fading (S t) n us'
       | Raised e us' => Raised e us'
       end).
    destruct (step self (fading t) us) as [us'|e us'].
    + rewrite IH. now replace (S t + n)%nat with (t + S n)%nat by lia.
    + reflexivity.
Qed.

Lemma fresh_invariant (self : FiveGSimulator) :
  fresh self -> run_invariant self 0 (ues self).
Proof.
  intros (Hlen & Hall). unfold run_invariant. split; [assumption|].
  rewrite Forall_forall in Hall.
  repeat split; apply Forall_forall; intros ue Hin;
    destruct (Hall ue Hin) as (Hd & Ht & Hl & Hs & Ha).
  - rewrite Ha. lra.
  - assumption.
  - unfold histories_length. now rewrite Ht, Hl, Hs.
Qed.

Lemma step_invariant (self : FiveGSimulator) (f : nat -> R) (k : nat)
    (us : list UE) :
  valid_config self -> run_invariant self k us ->
  exists us', step self f us = Ok us' /\ run_invariant self (S k) us'.
Proof.
  intros Hvalid (Hlen & Havg & Hdist & Hhist).
  destruct (step_defined self f us Hvalid Hlen Havg)
    as (bw & us' & _ & Hstep & Hlen' & Hpos).
  exists us'. split; [assumption|].
  assert (forall i u', nth_error us' i = Some u' ->
            exists ue b, nth_error us i = Some ue /\ 0 <= b /\
                         u' = next_ue self (f i) ue b) as Hback.
  { intros i u' Hu'.
    destruct (nth_error_defined us i) as [ue Hue].
    { rewrite <- Hlen'. apply nth_error_Some. congruence. }
    destruct (Hpos i ue Hue) as (b & _ & Hb & Hn).
    exists ue, b. repeat split; congruence. }
  unfold run_invariant. split; [congruence|].
  repeat split; apply Forall_by_nth; intros i u' Hu';
    destruct (Hback i u' Hu') as (ue & b & Hue & Hb & ->).
  - apply next_ue_avg; [|assumption].
    eapply Forall_nth_error_inv in Havg; [exact Havg | exact Hue].
  - simpl. eapply Forall_nth_error_inv in Hdist; [exact Hdist | exact Hue].
  - apply next_ue_histories.
    eapply Forall_nth_error_inv in Hhist; [exact Hhist | exact Hue].
Qed.

(** Under a valid configuration every prefix of a run completes, and the
    invariant holds after it. *)
Lemma reachable_invariant (self : FiveGSimulator)
    (fading : nat -> nat -> R) (k : nat) :
  valid_config self -> fresh self ->
  exists us, state_after self fading k = Ok us /\ run_invariant self k us.
Proof.
  intros Hvalid Hfresh. induction k as [|k (us & Hrun & Hinv)].
  - exists (ues self). split; [reflexivity | now apply fresh_invariant].
  - destruct (step_invariant self (fading k) k us Hvalid Hinv)
      as (us' & Hstep & Hinv').
    exists us'. split; [|assumption].
    unfold state_after in *. rewrite run_steps_snoc, Hrun. exact Hstep.
Qed.

(** ** The constructor *)

Lemma randint_range (low high r : Z) :
  (low < high)%Z -> (low <= Np.randint low high r < high)%Z.
Proof.
  intros H. unfold Np.randint.
  pose proof (Z.mod_pos_bound r (high - low)). lia.
Qed.

Lemma init_ues_nth (n : Z) (bw tx nf mg : R) (sch : string) (steps : Z)
    (out : string) (draws : nat -> Z) (i : nat) (ue : UE) :
  nth_error (ues (FiveGSimulator_init n bw tx nf mg sch steps out draws)) i
    = Some ue ->
  (i < Z.to_nat n)%nat /\
  ue = UE_init (Z.of_nat i) (IZR (Np.randint 50 500 (draws i))).
Proof.
  cbn [ues FiveGSimulator_init]. intros H.
  assert (i < Z.to_nat n)%nat as Hi.
  { rewrite <- (length_seq (Z.to_nat n) 0). erewrite <- length_map.
    apply nth_error_Some. rewrite H. discriminate. }
  split; [assumption|].
  rewrite nth_error_map, nth_error_seq in H.
  destruct (Nat.ltb_spec i (Z.to_nat n)); [|lia].
  simpl in H. now injection H as <-.
Qed.

Lemma init_fresh (n : Z) (bw tx nf mg : R) (sch : string) (steps : Z)
    (out : string) (draws : nat -> Z) :
  fresh (FiveGSimulator_init n bw tx nf mg sch steps out draws).
Proof.
  split.
  - simpl. now rewrite length_map, length_seq.
  - apply Forall_by_nth. intros i ue H.
    apply init_ues_nth in H. destruct H as (_ & ->).
    unfold fresh_ue. cbn [UE_init distance throughput_history
      latency_history snr_history avg_throughput]. repeat split.
    pose proof (randint_range 50 500 (draws i) ltac:(lia)) as Hr.
    apply (IZR_lt 0). lia.
Qed.

(** ** Claims on valid configurations *)

(** C3.  In every step of a run the moving average of every terminal
    becomes 0.9 times its old value plus 0.1 times the throughput sample
    that the step appended to the terminal's history. *)
Theorem avg_throughput_is_ema (self : FiveGSimulator)
    (fading : nat -> nat -> R) (k : nat) :
  valid_config self -> fresh self ->
  exists us us',
    state_after self fading k = Ok us /\
    step self (fading k) us = Ok us' /\
    state_after self fading (S k) = Ok us' /\
    Forall2 ema_updated us us'.
Proof.
  intros Hvalid Hfresh.
  destruct (reachable_invariant self fading k Hvalid Hfresh)
    as (us & Hrun & Hlen & Havg & _).
  destruct (step_defined self (fading k) us Hvalid Hlen Havg)
    as (bw & us' & _ & Hstep & Hlen' & Hpos).
  exists us, us'. repeat split; try assumption.
  - unfold state_after in *. now rewrite run_steps_snoc, Hrun.
  - apply Forall2_by_nth; [congruence|]. intros i ue ue' Hue Hue'.
    destruct (Hpos i ue Hue) as (b & _ & _ & Hn).
    rewrite Hn in Hue'. injection Hue' as <-. apply next_ue_ema.
Qed.

Lemma avg_throughput_is_ema_witness :
  valid_config (main_sim demo_draws) /\ fresh (main_sim demo_draws) /\
  exists us us',
    state_after (main_sim demo_draws) demo_fading 2 = Ok us /\
    step (main_sim demo_draws) (demo_fading 2%nat) us = Ok us' /\
    state_after (main_sim demo_draws) demo_fading 3 = Ok us' /\
    Forall2 ema_updated us us'.
Proof.
  assert (valid_config (main_sim demo_draws)) as Hv by valid_by_evaluation.
  assert (fresh (main_sim demo_draws)) as Hf by fresh_by_evaluation.
  split; [exact Hv|]. split; [exact Hf|].
  exact (avg_throughput_is_ema (main_sim demo_draws) demo_fading 2 Hv Hf).
Defined.

(** C5.  From a valid configuration every prefix of a run completes, and
    after [k] completed steps the throughput, latency and SNR histories of
    every terminal all have length [k]; the completed run leaves every
    history with exactly [sim_steps] samples. *)
Theorem histories_grow_in_lock_step (self : FiveGSimulator)
    (fading : nat -> nat -> R) :
  valid_config self -> fresh self ->
  (forall k, exists us,
     state_after self fading k = Ok us /\
     length us = length (ues self) /\
     Forall (histories_length k) us) /\
  (exists us,
     run self fading = Ok us /\
     length us = length (ues self) /\
     Forall (histories_length (Z.to_nat (sim_steps self))) us).
Proof.
  intros Hvalid Hfresh.
  assert (forall k, exists us,
            state_after self fading k = Ok us /\
            length us = length (ues self) /\
            Forall (histories_length k) us) as H.
  { intros k.
    destruct (reachable_invariant self fading k Hvalid Hfresh)
      as (us & Hrun & Hlen & _ & _ & Hhist).
    exists us. repeat split; try assumption.
    destruct Hfresh as (Hl0 & _). congruence. }
  split; [exact H|]. exact (H (Z.to_nat (sim_steps self))).
Qed.

Lemma histories_grow_in_lock_step_witness :
  valid_config (main_sim demo_draws) /\ fresh (main_sim demo_draws) /\
  (forall k, exists us,
     state_after (main_sim demo_draws) demo_fading k = Ok us /\
     length us = length (ues (main_sim demo_draws)) /\
     Forall (histories_length k) us) /\
  (exists us,
     run (main_sim demo_draws) demo_fading = Ok us /\
     length us = length (ues (main_sim demo_draws)) /\
     Forall (histories_length (Z.to_nat (sim_steps (main_sim demo_draws))))
            us).
Proof.
  assert (valid_config (main_sim demo_draws)) as Hv by valid_by_evaluation.
  assert (fresh (main_sim demo_draws)) as Hf by fresh_by_evaluation.
  split; [exact Hv|]. split; [exact Hf|].
  exact (histories_grow_in_lock_step (main_sim demo_draws) demo_fading Hv Hf).
Defined.

(** ** An unrecognised scheduler *)

Lemma link_phase_keeps (self : FiveGSimulator) (f : nat -> R) (us : list UE) :
  Forall2 (fun ue ue' =>
             throughput_history ue' = throughput_history ue /\
             latency_history ue' = latency_history ue /\
             avg_throughput ue' = avg_throughput ue /\
             exists snr_db, snr_history ue' = snr_history ue ++ [snr_db])
          us (linked (link_phase self f 0 us)).
Proof.
  apply Forall2_by_nth.
  - now destruct (link_phase_length self f 0 us) as (-> & _).
  - intros i ue ue' Hue Hue'.
    destruct (link_phase_nth self f 0 us i ue Hue) as (H & _).
    rewrite H in Hue'. injection Hue' as <-. simpl. eauto.
Qed.

(** C2, as the code has it.  With an unrecognised scheduler and at least
    one step to run, the run raises [ValueError] in the first step, after
    the link phase and before the metrics phase: the throughput and latency
    histories and the averages are untouched, and every terminal's SNR
    history has gained the one sample of that link phase. *)
Theorem unrecognised_scheduler_raises_in_first_step (self : FiveGSimulator)
    (fading : nat -> nat -> R) :
  ~ recognised self -> (0 < sim_steps self)%Z ->
  exists us',
    run self fading
      = Raised (ValueError "Scheduler must be 'equal' or 'pf'") us' /\
    us' = linked (link_phase self (fading 0%nat) 0 (ues self)) /\
    Forall2 (fun ue ue' =>
               throughput_history ue' = throughput_history ue /\
               latency_history ue' = latency_history ue /\
               avg_throughput ue' = avg_throughput ue /\
               exists snr_db, snr_history ue' = snr_history ue ++ [snr_db])
            (ues self) us'.
Proof.
  intros Hunrec Hsteps.
  exists (linked (link_phase self (fading 0%nat) 0 (ues self))).
  split; [|split; [reflexivity | apply link_phase_keeps]].
  unfold run. destruct (Z.to_nat (sim_steps self)) as [|n] eqn:E; [lia|].
  simpl. unfold step. now rewrite allocate_unrecognised.
Qed.

Lemma unrecognised_scheduler_raises_in_first_step_witness :
  ~ recognised foo_sim /\ (0 < sim_steps foo_sim)%Z /\
  exists us',
    run foo_sim demo_fading
      = Raised (ValueError "Scheduler must be 'equal' or 'pf'") us' /\
    us' = linked (link_phase foo_sim (demo_fading 0%nat) 0 (ues foo_sim)) /\
    Forall2 (fun ue ue' =>
               throughput_history ue' = throughput_history ue /\
               latency_history ue' = latency_history ue /\
               avg_throughput ue' = avg_throughput ue /\
               exists snr_db, snr_history ue' = snr_history ue ++ [snr_db])
            (ues foo_sim) us'.
Proof.
  assert (~ recognised foo_sim) as Hu.
  { intros [H|H]; simpl in H; discriminate H. }
  assert (0 < sim_steps foo_sim)%Z as Hs by (simpl; lia).
  split; [exact Hu|]. split; [exact Hs|].
  exact (unrecognised_scheduler_raises_in_first_step foo_sim demo_fading
           Hu Hs).
Defined.

(** C2 as stated fails on the scenario of the specification: with
    [scheduler="foo"] the run does raise [ValueError], but only after the
    first step's link phase has appended one SNR sample to each of the five
    terminals, so the histories are not all empty. *)
Lemma unrecognised_scheduler_counterexample :
  exists us',
    run foo_sim demo_fading
      = Raised (ValueError "Scheduler must be 'equal' or 'pf'") us' /\
    length us' = 5%nat /\
    Forall (fun ue => length (snr_history ue) = 1%nat) us' /\
    ~ Forall histories_empty us'.
Proof.
  eexists. split; [reflexivity|]. split; [reflexivity|]. split.
  - repeat constructor.
  - intros H. inversion H as [|ue us (_ & _ & Hs) _]. discriminate Hs.
Qed.

(** ** Configurations that are not validated *)

Lemma step_completes (self : FiveGSimulator) (f : nat -> R) (us : list UE) :
  recognised self ->
  (scheduler self = "equal"%string -> num_ues self <> 0%Z) ->
  exists us', step self f us = Ok us'.
Proof.
  intros [Hs|Hs] Hn; unfold step.
  - rewrite allocate_equal by auto. eauto.
  - rewrite allocate_pf by assumption. eauto.
Qed.

Lemma run_steps_complete (self : FiveGSimulator) (fading : nat -> nat -> R)
    (t n : nat) (us : list UE) :
  recognised self ->
  (scheduler self = "equal"%string -> num_ues self <> 0%Z) ->
  exists us', run_steps self fading t n us = Ok us'.
Proof.
  intros Hr Hn. revert t us. induction n as [|n IH]; intros t us.
  - simpl. eauto.
  - destruct (step_completes self (fading t) us Hr Hn) as (us1 & H1).
    change (run_steps self fading t (S n) us) with
      (match step self (fading t) us with
       | Ok us' => run_steps self fading (S t) n us'
       | Raised e us' => Raised e us'
       end).
    rewrite H1. apply IH.
Qed.

Lemma run_steps_zero_division (self : FiveGSimulator)
    (fading : nat -> nat -> R) (t n : nat) (us : list UE) :
  scheduler self = "equal"%string -> num_ues self = 0%Z ->
  run_steps self fading t (S n) us
  = Raised ZeroDivisionError (linked (link_phase self (fading t) 0 us)).
Proof.
  intros Hs Hn.
  change (run_steps self fading t (S n) us) with
    (match step self (fading t) us with
     | Ok us' => run_steps self fading (S t) n us'
     | Raised e us' => Raised e us'
     end).
  unfold step, allocate. rewrite Hs, Hn. reflexivity.
Qed.

(** C8, as the code has it.  Nothing validates the configuration.  With a
    recognised scheduler a run never reports a configuration error,
    whatever the bandwidth, the terminal count and the step count.  With a
    terminal count of 0 under the equal-share scheduler and at least one
    step, the first step raises [ZeroDivisionError], and so does the run,
    with the terminals as the first link phase left them; in every other
    case the run completes, and with a step count of 0 or less it completes
    at once, leaving the terminals as they were.  The terminal constructor
    stores any distance as given. *)
Theorem invalid_configuration_not_detected (self : FiveGSimulator)
    (fading : nat -> nat -> R) :
  recognised self ->
  (scheduler self = "equal"%string -> num_ues self = 0%Z ->
   (0 < sim_steps self)%Z ->
   step self (fading 0%nat) (ues self)
     = Raised ZeroDivisionError
              (linked (link_phase self (fading 0%nat) 0 (ues self))) /\
   run self fading
     = Raised ZeroDivisionError
              (linked (link_phase self (fading 0%nat) 0 (ues self)))) /\
  (~ (scheduler self = "equal"%string /\ num_ues self = 0%Z /\
      (0 < sim_steps self)%Z) ->
   exists us, run self fading = Ok us) /\
  (forall msg us, run self fading <> Raised (ValueError msg) us) /\
  ((sim_steps self <= 0)%Z -> run self fading = Ok (ues self)) /\
  (forall ue_id distance_m, distance (UE_init ue_id distance_m) = distance_m).
Proof.
  intros Hr.
  assert ((sim_steps self <= 0)%Z -> run self fading = Ok (ues self)) as H0.
  { intros H. unfold run.
    replace (Z.to_nat (sim_steps self)) with 0%nat by lia. reflexivity. }
  assert (scheduler self = "equal"%string -> num_ues self = 0%Z ->
          (0 < sim_steps self)%Z ->
          step self (fading 0%nat) (ues self)
            = Raised ZeroDivisionError
                     (linked (link_phase self (fading 0%nat) 0 (ues self))) /\
          run self fading
            = Raised ZeroDivisionError
                     (linked (link_phase self (fading 0%nat) 0 (ues self))))
    as H1.
  { intros Hs Hn Hp. split.
    - unfold step, allocate. rewrite Hs, Hn. reflexivity.
    - unfold run. destruct (Z.to_nat (sim_steps self)) as [|n] eqn:E; [lia|].
      now apply run_steps_zero_division. }
  assert (~ (scheduler self = "equal"%string /\ num_ues self = 0%Z /\
             (0 < sim_steps self)%Z) ->
          exists us, run self fading = Ok us) as H2.
  { intros Hnot.
    destruct (Z_lt_le_dec 0 (sim_steps self)) as [Hp|Hp].
    - apply run_steps_complete; [assumption|]. intros Hs Hn.
      apply Hnot. auto.
    - rewrite (H0 Hp). eauto. }
  split; [exact H1|]. split; [exact H2|].
  split; [|split; [exact H0 | reflexivity]].
  intros msg us E.
  destruct (String.eqb_spec (scheduler self) "equal") as [Hs|Hs];
    [destruct (Z.eq_dec (num_ues self) 0) as [Hn|Hn];
       [destruct (Z_lt_le_dec 0 (sim_steps self)) as [Hp|Hp]|]|].
  - destruct (H1 Hs Hn Hp) as (_ & H). rewrite H in E. discriminate E.
  - destruct H2 as (us' & H); [lia|]. rewrite H in E. discriminate E.
  - destruct H2 as (us' & H); [tauto|]. rewrite H in E. discriminate E.
  - destruct H2 as (us' & H); [tauto|]. rewrite H in E. discriminate E.
Qed.

Lemma invalid_configuration_not_detected_witness :
  recognised zero_ues_sim /\
  step zero_ues_sim (demo_fading 0%nat) (ues zero_ues_sim)
    = Raised ZeroDivisionError [] /\
  run zero_ues_sim demo_fading = Raised ZeroDivisionError [] /\
  (forall msg us, run zero_ues_sim demo_fading <> Raised (ValueError msg) us).
Proof.
  assert (recognised zero_ues_sim) as Hr by (left; reflexivity).
  destruct (invalid_configuration_not_detected zero_ues_sim demo_fading Hr)
    as (H1 & _ & H3 & _).
  destruct (H1 eq_refl eq_refl ltac:(simpl; lia)) as (Hs & Hrun).
  split; [exact Hr|]. split; [exact Hs|]. split; [exact Hrun | exact H3].
Defined.

(** C8 as stated fails: a step count of 0 and a negative bandwidth are
    both accepted by the constructor and by [run], which reports nothing
    (with the negative bandwidth both steps are executed and recorded), and
    a terminal is constructed at the distance -5. *)
Lemma invalid_configuration_counterexample :
  (~ valid_config no_steps_sim /\
   length (ues no_steps_sim) = 5%nat /\
   run no_steps_sim demo_fading = Ok (ues no_steps_sim)) /\
  (~ valid_config negative_bw_sim /\
   exists us, run negative_bw_sim demo_fading = Ok us /\
              length us = 2%nat /\ Forall (histories_length 2) us) /\
  distance (UE_init 0 (-5)) = -5.
Proof.
  split; [|split].
  - split; [|split; reflexivity].
    intros H. pose proof (valid_sim_steps _ H) as Hs. simpl in Hs. lia.
  - split.
    + intros H. pose proof (valid_total_bw _ H) as Hb. simpl in Hb. lra.
    + eexists. split; [reflexivity|]. split; [reflexivity|].
      repeat constructor.
  - reflexivity.
Qed.

(** ** Where the terminals are placed *)

(** C10, as the code has it.  The constructor takes no distance range: for
    every argument tuple and every outcome of the random source, terminal
    [i] is placed at the whole number of metres given by its own draw of
    [randint(50, 500)], at least 50 and below 500. *)
Theorem distances_drawn_from_fixed_range (n : Z) (bw tx nf mg : R)
    (sch : string) (steps : Z) (out : string) (draws : nat -> Z) :
  length (ues (FiveGSimulator_init n bw tx nf mg sch steps out draws))
    = Z.to_nat n /\
  forall i, (i < Z.to_nat n)%nat ->
    exists ue,
      nth_error (ues (FiveGSimulator_init n bw tx nf mg sch steps out draws)) i
        = Some ue /\
      id ue = Z.of_nat i /\
      distance ue = IZR (Np.randint 50 500 (draws i)) /\
      50 <= distance ue < 500.
Proof.
  assert (length (ues (FiveGSimulator_init n bw tx nf mg sch steps out
                         draws)) = Z.to_nat n) as Hlen
    by exact (proj1 (init_fresh n bw tx nf mg sch steps out draws)).
  split; [exact Hlen|]. intros i Hi.
  destruct (nth_error_defined
              (ues (FiveGSimulator_init n bw tx nf mg sch steps out draws)) i)
    as [ue Hue]; [lia|].
  exists ue. split; [exact Hue|].
  apply init_ues_nth in Hue. destruct Hue as (_ & ->).
  cbn [UE_init id distance]. split; [reflexivity|]. split; [reflexivity|].
  pose proof (randint_range 50 500 (draws i) ltac:(lia)) as (Hlo & Hhi).
  split; [apply IZR_le | apply IZR_lt]; assumption.
Qed.

(** C10 as stated fails: a distance range of 600 m to 700 m, well formed
    for the configuration surface, has no way into the constructor, and the
    first terminal of the entry point's simulator is placed at 50 m. *)
Lemma distance_range_counterexample :
  let dmin := 600 in
  let dmax := 700 in
  (0 < dmin /\ dmin <= dmax) /\
  exists ue,
    nth_error (ues (main_sim demo_draws)) 0 = Some ue /\
    distance ue = 50 /\
    ~ (dmin <= distance ue <= dmax).
Proof.
  cbv zeta. split; [lra|]. eexists. split; [reflexivity|].
  split; [reflexivity|]. intros [H _]. change (600 <= 50) in H. lra.
Qed.

(** ** Latency *)

Lemma code_latency_pos (d cap : R) :
  0 < d -> 0 <= cap -> 0 < cap + 1e-9 /\ 0 < code_latency_ms d cap.
Proof.
  intros Hd Hc. unfold code_latency_ms. split; [lra|].
  assert (0 < 1e6 / (cap + 1e-9)) by (apply Rdiv_lt_0_compat; lra).
  assert (0 < d / 3e8) by (apply Rdiv_lt_0_compat; lra).
  lra.
Qed.

Lemma code_latency_below_spec (d cap : R) :
  0 < cap -> code_latency_ms d cap < spec_latency_ms d cap.
Proof.
  intros Hc. unfold code_latency_ms, spec_latency_ms.
  apply Rmult_lt_compat_r; [lra|].
  apply Rplus_lt_compat_r, Rplus_lt_compat_r.
  apply Rmult_lt_compat_l; [lra|].
  apply Rinv_0_lt_contravar; lra.
Qed.

Lemma code_latency_at_zero (d : R) : 0 < d -> 1e18 <= code_latency_ms d 0.
Proof.
  intros Hd. unfold code_latency_ms.
  assert (0 < d / 3e8) by (apply Rdiv_lt_0_compat; lra).
  replace (1e6 / (0 + 1e-9)) with 1e15 by (field_simplify; lra).
  lra.
Qed.

(** The link of the single terminal of [narrow_sim] is resolved. *)
Lemma narrow_link_resolved :
  link_resolved (snr_lin_of (snr_db_of narrow_sim 1 (UE_init 0 50))).
Proof.
  apply snr_resolved.
  pose proof (snr_db_bounds narrow_sim 1 (UE_init 0 50) 1 2 0 1 0 1 3 3) as H.
  cbn [distance UE_init narrow_sim mimo_gain total_bw_hz tx_power_dbm
       noise_fig_db FiveGSimulator_init] in H.
  destruct H as [Hlo Hhi].
  - apply (log10_between 1 2). lra.
  - apply (log10_between 0 1). lra.
  - apply (log10_between 0 1). lra.
  - apply (log10_between 3 3). lra.
  - lra.
Qed.

(** C7, as the code has it.  In every step of a run from a valid
    configuration, the latency recorded for a terminal is, in milliseconds,
    1000 times the sum of: 1e6 bits over the realised capacity plus 1e-9
    (the capacity is the allocated bandwidth times log2(1 + linear SNR),
    the sum being 1 when the SNR is absorbed); distance / 3e8; and 1e-3
    seconds.  For every positive distance and every capacity that is not
    negative, the divisor and the latency are strictly positive; at
    capacity 0 the latency is at least 1e18 ms.  In a run that holds for every
    terminal whose allocated bandwidth is a number that is not negative. *)
Theorem latency_recorded (self : FiveGSimulator) (fading : nat -> nat -> R)
    (k : nat) :
  valid_config self -> fresh self ->
  (exists us bw us',
     state_after self fading k = Ok us /\
     bw_alloc_of self (fading k) us = inr bw /\
     state_after self fading (S k) = Ok us' /\
     forall i ue, nth_error us i = Some ue ->
       exists b s ue',
         nth_error bw i = Some b /\
         nth_error (snrs_linear (link_phase self (fading k) 0 us)) i
           = Some s /\
         nth_error us' i = Some ue' /\
         latency_history ue'
           = latency_history ue
             ++ [code_latency_ms (distance ue) (cap_bps_of b s)] /\
         (0 <= b ->
          0 < cap_bps_of b s + 1e-9 /\
          0 < code_latency_ms (distance ue) (cap_bps_of b s))) /\
  (forall d cap, 0 < d -> 0 <= cap ->
     0 < cap + 1e-9 /\ 0 < code_latency_ms d cap) /\
  (forall d, 0 < d -> 1e18 <= code_latency_ms d 0).
Proof.
  intros Hvalid Hfresh.
  split; [|split; [exact code_latency_pos | exact code_latency_at_zero]].
  destruct (reachable_invariant self fading k Hvalid Hfresh)
    as (us & Hrun & Hlen & Havg & Hdist & _).
  destruct (step_defined self (fading k) us Hvalid Hlen Havg)
    as (bw & us' & Hbw & Hstep & Hlen' & Hpos).
  exists us, bw, us'. repeat split; try assumption.
  { unfold state_after in *. now rewrite run_steps_snoc, Hrun. }
  intros i ue Hue. destruct (Hpos i ue Hue) as (b & Hb & _ & Hn).
  destruct (link_phase_nth self (fading k) 0 us i ue Hue) as (_ & Hs & _).
  simpl in Hs.
  exists b, (snr_lin_of (snr_db_of self (fading k i) ue)),
         (next_ue self (fading k i) ue b).
  split; [exact Hb|]. split; [exact Hs|]. split; [exact Hn|].
  split; [apply next_ue_latency|].
  intros Hb0. apply code_latency_pos.
  - eapply Forall_nth_error_inv in Hdist; [exact Hdist | exact Hue].
  - now apply cap_bps_nonneg.
Qed.

Lemma latency_recorded_witness :
  valid_config (main_sim demo_draws) /\ fresh (main_sim demo_draws) /\
  (exists us bw us',
     state_after (main_sim demo_draws) demo_fading 1 = Ok us /\
     bw_alloc_of (main_sim demo_draws) (demo_fading 1%nat) us = inr bw /\
     state_after (main_sim demo_draws) demo_fading 2 = Ok us' /\
     forall i ue, nth_error us i = Some ue ->
       exists b s ue',
         nth_error bw i = Some b /\
         nth_error (snrs_linear (link_phase (main_sim demo_draws)
                                   (demo_fading 1%nat) 0 us)) i = Some s /\
         nth_error us' i = Some ue' /\
         latency_history ue'
           = latency_history ue
             ++ [code_latency_ms (distance ue) (cap_bps_of b s)] /\
         (0 <= b ->
          0 < cap_bps_of b s + 1e-9 /\
          0 < code_latency_ms (distance ue) (cap_bps_of b s))) /\
  0 < code_latency_ms 50 0.
Proof.
  assert (valid_config (main_sim demo_draws)) as Hv by valid_by_evaluation.
  assert (fresh (main_sim demo_draws)) as Hf by fresh_by_evaluation.
  destruct (latency_recorded (main_sim demo_draws) demo_fading 1 Hv Hf)
    as (Hrun & Hpos & _).
  split; [exact Hv|]. split; [exact Hf|]. split; [exact Hrun|].
  apply Hpos; lra.
Defined.

(** C7 as stated fails: for one terminal at 50 m on a band of 1 kHz the
    capacity is positive, and the latency the step records is strictly
    below the latency computed with the transmission time at that capacity
    itself, because the code divides by the capacity plus 1e-9. *)
Lemma latency_counterexample :
  let snr_lin :=
    snr_lin_of (snr_db_of narrow_sim (demo_fading 0%nat 0%nat)
                  (UE_init 0 50)) in
  let bw := 1000 / 1 in
  ues narrow_sim = [UE_init 0 50] /\
  bw_alloc_of narrow_sim (demo_fading 0%nat) (ues narrow_sim) = inr [bw] /\
  snrs_linear (link_phase narrow_sim (demo_fading 0%nat) 0 (ues narrow_sim))
    = [snr_lin] /\
  0 < cap_bps_of bw snr_lin /\
  exists ue lat,
    run narrow_sim demo_fading = Ok [ue] /\
    latency_history ue = [lat] /\
    lat = code_latency_ms 50 (cap_bps_of bw snr_lin) /\
    lat < spec_latency_ms 50 (cap_bps_of bw snr_lin) /\
    lat <> spec_latency_ms 50 (cap_bps_of bw snr_lin).
Proof.
  cbv zeta.
  assert (0 < cap_bps_of (1000 / 1)
                (snr_lin_of (snr_db_of narrow_sim
                               (demo_fading 0%nat 0%nat)
                               (UE_init 0 50)))) as Hcap.
  { apply cap_bps_pos; [lra | apply narrow_link_resolved]. }
  split; [reflexivity|]. split; [reflexivity|]. split; [reflexivity|].
  split; [exact Hcap|].
  do 2 eexists.
  split; [reflexivity|]. split; [reflexivity|]. split; [reflexivity|].
  pose proof (code_latency_below_spec 50 _ Hcap) as Hlt.
  split; [exact Hlt|]. apply Rlt_not_eq. exact Hlt.
Qed.

(** ** The traced model computes what the model computes *)

Lemma map_t_value {A B : Type} (f : A -> traced B) (xs : list A) :
  fst (map_t f xs) = map (fun x => fst (f x)) xs.
Proof.
  induction xs as [|x xs IH]; simpl; [reflexivity | now rewrite IH].
Qed.

Lemma map_t_operands {A B : Type} (f : A -> traced B) (xs : list A) :
  (forall x, In x xs -> Forall operand_ok (snd (f x))) ->
  Forall operand_ok (snd (map_t f xs)).
Proof.
  induction xs as [|x xs IH]; intros H; simpl.
  - constructor.
  - apply Forall_app. split; [apply H; now left|].
    rewrite app_nil_r. apply IH. intros y Hy. apply H. now right.
Qed.

Lemma link_phase_t_value (self : FiveGSimulator) (f : nat -> R) (i : nat)
    (us : list UE) :
  fst (link_phase_t self f i us) = link_phase self f i us.
Proof.
  revert i. induction us as [|ue us IH]; intros i.
  - reflexivity.
  - cbn [link_phase_t link_phase bind fst ret]. now rewrite IH.
Qed.

Lemma allocate_t_value (self : FiveGSimulator) (caps : list R)
    (us : list UE) :
  fst (allocate_t self caps us) = allocate self caps us.
Proof.
  unfold allocate_t, allocate.
  destruct (scheduler self =? "equal")%string.
  - cbn [bind fst div_t]. now destruct (num_ues self =? 0)%Z.
  - destruct (scheduler self =? "pf")%string; [|reflexivity].
    cbn [bind fst ret]. rewrite !map_t_value. reflexivity.
Qed.

Lemma metrics_phase_t_value (us : list UE) (bw ss cs : list R) :
  fst (metrics_phase_t us bw ss cs) = metrics_phase us bw ss cs.
Proof.
  revert bw ss cs. induction us as [|ue us IH]; intros bw ss cs.
  - reflexivity.
  - destruct bw, ss, cs; try reflexivity.
    cbn [metrics_phase_t metrics_phase bind fst ret]. now rewrite IH.
Qed.

Lemma step_t_value (self : FiveGSimulator) (f : nat -> R) (us : list UE) :
  fst (step_t self f us) = step self f us.
Proof.
  unfold step_t, step. cbn [bind fst].
  rewrite link_phase_t_value, allocate_t_value.
  destruct (allocate self _ _); cbn [bind fst ret]; [reflexivity|].
  now rewrite metrics_phase_t_value.
Qed.

(** ** The operands of a step are positive *)

Lemma snr_db_t_operands (self : FiveGSimulator) (fad : R) (ue : UE) :
  0 < total_bw_hz self -> 1 <= mimo_gain self -> 0 <= fad ->
  0 < distance ue ->
  Forall operand_ok (snd (snr_db_t self fad ue)).
Proof.
  intros HB Hm Hf Hd. pose proof PI_RGT_0 as Hpi.
  unfold snr_db_t, path_loss_db_t, noise_power_dbm_t, f_default, Np.pi.
  cbn [bind snd fst ret div_t log10_t app].
  repeat constructor; unfold operand_ok; try lra.
Qed.

Lemma link_phase_t_operands (self : FiveGSimulator) (f : nat -> R) (i : nat)
    (us : list UE) :
  0 < total_bw_hz self -> 1 <= mimo_gain self -> (forall j, 0 <= f j) ->
  Forall (fun ue => 0 < distance ue) us ->
  Forall operand_ok (snd (link_phase_t self f i us)).
Proof.
  intros HB Hm Hf Hd. revert i.
  induction Hd as [|ue us Hue Hus IH]; intros i.
  - constructor.
  - change (snd (link_phase_t self f i (ue :: us))) with
      (snd (snr_db_t self (f i) ue)
       ++ [Divisor 10]
       ++ [LogArg (one_plus (snr_lin_of (fst (snr_db_t self (f i) ue))))]
       ++ snd (link_phase_t self f (S i) us) ++ []).
    apply Forall_app. split; [now apply snr_db_t_operands|].
    constructor; [simpl; lra|]. constructor; [|rewrite app_nil_r; apply IH].
    unfold operand_ok.
    pose proof (one_plus_ge_1 (snr_lin_of (fst (snr_db_t self (f i) ue)))).
    lra.
Qed.

Lemma metrics_phase_t_operands (us : list UE) (bw ss cs : list R) :
  Forall (fun b => 0 <= b) bw ->
  Forall operand_ok (snd (metrics_phase_t us bw ss cs)).
Proof.
  intros Hbw. revert us ss cs.
  induction Hbw as [|b bw Hb Hbw IH]; intros us ss cs.
  - destruct us; constructor.
  - destruct us as [|ue us]; [constructor|].
    destruct ss as [|s ss]; [constructor|].
    destruct cs as [|c cs]; [constructor|].
    change (snd (metrics_phase_t (ue :: us) (b :: bw) (s :: ss) (c :: cs)))
      with ([LogArg (one_plus s); Divisor 1e6;
             Divisor (b * Np.log2 (one_plus s) + 1e-9); Divisor 3e8]
            ++ snd (metrics_phase_t us bw ss cs) ++ []).
    pose proof (cap_bps_nonneg b s Hb) as Hcap. unfold cap_bps_of in Hcap.
    pose proof (one_plus_ge_1 s) as H1.
    rewrite app_nil_r. apply Forall_app. split; [|now apply IH].
    repeat constructor; unfold operand_ok; lra.
Qed.

(** The allocation's operands are positive unless the shares are 0/0. *)
Lemma allocate_t_operands (self : FiveGSimulator) (f : nat -> R)
    (us : list UE) :
  valid_config self ->
  length us = Z.to_nat (num_ues self) ->
  Forall (fun ue => 0 < avg_throughput ue) us ->
  (scheduler self = "pf"%string ->
   shares_defined (inst_caps (link_phase self f 0 us))
                  (linked (link_phase self f 0 us))) ->
  Forall operand_ok
    (snd (allocate_t self (inst_caps (link_phase self f 0 us))
                     (linked (link_phase self f 0 us)))).
Proof.
  intros Hvalid Hlen Havg Hdef.
  pose proof (sum_nonneg _ (weights_nonneg self f us Hvalid Havg)) as HW.
  pose proof (linked_avg_positive self f us Havg) as Hla.
  cbv zeta in HW, Hla.
  unfold allocate_t.
  destruct (valid_scheduler _ Hvalid) as [Hs|Hs]; rewrite Hs;
    cbn [String.eqb Ascii.eqb Bool.eqb andb].
  - cbn [bind snd fst div_t]. apply Forall_app. split.
    + repeat constructor. simpl. apply (IZR_lt 0), Hvalid.
    + destruct (num_ues self =? 0)%Z; constructor.
  - specialize (Hdef Hs). unfold shares_defined in Hdef.
    cbn [bind snd fst ret]. rewrite app_nil_r. apply Forall_app. split.
    + apply map_t_operands. intros [c u] Hin. apply in_combine_r in Hin.
      rewrite Forall_forall in Hla. specialize (Hla u Hin).
      repeat constructor. simpl in *. lra.
    + apply map_t_operands. intros w _. rewrite map_t_value.
      repeat constructor. unfold operand_ok.
      change (map (fun x : R * UE => fst (div_t (fst x)
                                           (avg_throughput (snd x) + 1e-9)))
                  (combine (inst_caps (link_phase self f 0 us))
                           (linked (link_phase self f 0 us))))
        with (pf_weights (inst_caps (link_phase self f 0 us))
                         (linked (link_phase self f 0 us))).
      lra.
Qed.

(** Every operand of a step from the state of a valid run is positive,
    unless the shares are 0/0. *)
Lemma step_t_operands (self : FiveGSimulator) (f : nat -> R) (k : nat)
    (us : list UE) :
  valid_config self -> run_invariant self k us -> (forall j, 0 <= f j) ->
  (scheduler self = "pf"%string ->
   shares_defined (inst_caps (link_phase self f 0 us))
                  (linked (link_phase self f 0 us))) ->
  Forall operand_ok (snd (step_t self f us)).
Proof.
  intros Hvalid (Hlen & Havg & Hdist & _) Hfad Hdef.
  destruct (alloc_defined self f us Hvalid Hlen Havg)
    as (bw & Hbw & _ & Hpos).
  pose proof (allocate_t_operands self f us Hvalid Hlen Havg Hdef) as Ha.
  unfold bw_alloc_of in Hbw.
  unfold step_t. cbn [bind snd fst].
  rewrite link_phase_t_value, allocate_t_value, Hbw.
  cbn [bind snd fst ret]. rewrite !app_nil_r.
  apply Forall_app. split; [|apply Forall_app; split].
  - apply link_phase_t_operands;
      [apply (valid_total_bw _ Hvalid) | apply (valid_mimo_gain _ Hvalid)
      | exact Hfad | assumption].
  - exact Ha.
  - now apply metrics_phase_t_operands.
Qed.

(** The operands one step records for the single terminal of [narrow_sim],
    in the order of the source: path loss, fading, MIMO gain, noise, the
    power, the Shannon capacity, the equal share, then the metrics. *)
Lemma step_t_operands_example :
  let s := snr_lin_of (snr_db_of narrow_sim 1 (UE_init 0 50)) in
  snd (step_t narrow_sim (demo_fading 0%nat) (ues narrow_sim))
  = [Divisor 3e8; LogArg (4 * PI * 1 * 3.5e9 / 3e8);
     Divisor 1; LogArg (50 / 1);
     LogArg (1 + 1e-9); LogArg 2; LogArg 1000;
     Divisor 10; LogArg (one_plus s);
     Divisor 1;
     LogArg (one_plus s); Divisor 1e6;
     Divisor (1000 / 1 * Np.log2 (one_plus s) + 1e-9); Divisor 3e8].
Proof. reflexivity. Qed.

(** Under the proportional-fair scheduler the total weight is an operand
    of the step: every share divides by it. *)
Lemma total_weight_is_divisor (self : FiveGSimulator) (f : nat -> R)
    (ue : UE) (us : list UE) :
  scheduler self = "pf"%string ->
  In (Divisor (sum (pf_weights
                      (inst_caps (link_phase self f 0 (ue :: us)))
                      (linked (link_phase self f 0 (ue :: us))))))
     (snd (step_t self f (ue :: us))).
Proof.
  intros Hs. unfold step_t. cbn [bind snd fst].
  rewrite link_phase_t_value.
  apply in_or_app. right. apply in_or_app. left.
  unfold allocate_t. rewrite Hs. cbn [String.eqb Ascii.eqb Bool.eqb andb].
  cbn [bind snd fst ret]. apply in_or_app. right. apply in_or_app. left.
  rewrite map_t_value.
  change (map (fun x : R * UE => fst (div_t (fst x)
                                       (avg_throughput (snd x) + 1e-9)))
              (combine (inst_caps (link_phase self f 0 (ue :: us)))
                       (linked (link_phase self f 0 (ue :: us)))))
    with (pf_weights (inst_caps (link_phase self f 0 (ue :: us)))
                     (linked (link_phase self f 0 (ue :: us)))).
  cbn [link_phase inst_caps linked pf_weights combine map map_t bind snd fst
       div_t ret app].
  left. reflexivity.
Qed.

(** ** The total weight has no floor

    The three floors of 1e-9 cover the fading sample, the average
    throughput and the capacity in the latency; the total weight of line
    96 has none.  When every link of a step is absorbed, every capacity is
    0, every weight is 0 and so is their sum, and line 97 divides 0 by 0
    for every terminal. *)

Lemma cap_of_absorbed (self : FiveGSimulator) (s : R) :
  s <= absorb_threshold -> cap_of self s = 0.
Proof.
  intros H. unfold cap_of. rewrite log2_one_plus_absorbed by assumption.
  ring.
Qed.

Lemma pf_weights_starved (caps : list R) (us : list UE) :
  Forall (fun c => c = 0) caps ->
  pf_weights caps us = map (fun _ => 0) (combine caps us).
Proof.
  unfold pf_weights. intros H. revert us.
  induction H as [|c caps Hc _ IH]; intros [|u us]; try reflexivity.
  cbn [combine map fst snd]. rewrite IH, Hc. f_equal.
  unfold Rdiv. ring.
Qed.

Lemma sum_zeros {A : Type} (xs : list A) : sum (map (fun _ => 0) xs) = 0.
Proof.
  induction xs as [|x xs IH]; [reflexivity|].
  cbn [map]. rewrite sum_cons, IH. ring.
Qed.

(** With every capacity at 0, each proportional-fair share is the quotient
    of 0 by 0. *)
Lemma allocate_starved (self : FiveGSimulator) (caps : list R)
    (us : list UE) :
  scheduler self = "pf"%string -> Forall (fun c => c = 0) caps ->
  sum (pf_weights caps us) = 0 /\
  allocate self caps us
  = inr (map (fun _ => 0 / 0 * total_bw_hz self) (combine caps us)).
Proof.
  intros Hs Hc. rewrite allocate_pf by assumption.
  rewrite pf_weights_starved by assumption. rewrite sum_zeros.
  split; [reflexivity|]. now rewrite map_map.
Qed.

(** At -300 dBm every link of [starved_pf_sim] is absorbed. *)
Lemma starved_link_absorbed (ue : UE) :
  10 <= distance ue <= 1000 ->
  snr_lin_of (snr_db_of starved_pf_sim 1 ue) <= absorb_threshold.
Proof.
  intros Hd. apply snr_absorbed.
  pose proof fading_log_unit as Hf.
  pose proof (snr_db_window starved_pf_sim 1 ue Hd) as H.
  cbn [starved_pf_sim mimo_gain total_bw_hz tx_power_dbm noise_fig_db
       FiveGSimulator_init] in H.
  destruct H as [_ Hhi]; lra.
Qed.

(** At -30 dBm the links of [fading_out_sim] are resolved at a Rayleigh
    sample of 1 and absorbed at a sample of 0. *)
Lemma fading_out_link_resolved (ue : UE) :
  10 <= distance ue <= 1000 ->
  link_resolved (snr_lin_of (snr_db_of fading_out_sim 1 ue)).
Proof.
  intros Hd. apply snr_resolved.
  pose proof fading_log_unit as Hf.
  pose proof (snr_db_window fading_out_sim 1 ue Hd) as H.
  cbn [fading_out_sim mimo_gain total_bw_hz tx_power_dbm noise_fig_db
       FiveGSimulator_init] in H.
  destruct H as [Hlo Hhi]; lra.
Qed.

Lemma fading_out_link_absorbed (ue : UE) :
  10 <= distance ue <= 1000 ->
  snr_lin_of (snr_db_of fading_out_sim 0 ue) <= absorb_threshold.
Proof.
  intros Hd. apply snr_absorbed.
  pose proof fading_log_floor as Hf.
  pose proof (snr_db_window fading_out_sim 0 ue Hd) as H.
  cbn [fading_out_sim mimo_gain total_bw_hz tx_power_dbm noise_fig_db
       FiveGSimulator_init] in H.
  destruct H as [_ Hhi]; lra.
Qed.

Lemma starved_caps :
  inst_caps (link_phase starved_pf_sim (demo_fading 0%nat) 0
               (ues starved_pf_sim)) = [0; 0].
Proof.
  change (inst_caps (link_phase starved_pf_sim (demo_fading 0%nat) 0
                       (ues starved_pf_sim)))
    with [cap_of starved_pf_sim
            (snr_lin_of (snr_db_of starved_pf_sim 1 (UE_init 0 50)));
          cap_of starved_pf_sim
            (snr_lin_of (snr_db_of starved_pf_sim 1 (UE_init 1 150)))].
  rewrite !cap_of_absorbed
    by (apply starved_link_absorbed; cbn [distance UE_init]; lra).
  reflexivity.
Qed.

Lemma starved_shares :
  sum (pf_weights
         (inst_caps (link_phase starved_pf_sim (demo_fading 0%nat) 0
                       (ues starved_pf_sim)))
         (linked (link_phase starved_pf_sim (demo_fading 0%nat) 0
                    (ues starved_pf_sim)))) = 0 /\
  bw_alloc_of starved_pf_sim (demo_fading 0%nat) (ues starved_pf_sim)
  = inr [0 / 0 * 20e6; 0 / 0 * 20e6].
Proof.
  unfold bw_alloc_of. cbv zeta. rewrite starved_caps.
  apply (allocate_starved starved_pf_sim [0; 0]); [reflexivity|].
  repeat constructor.
Qed.

(** C1 fails in the code, on a valid configuration: with two terminals
    under the proportional-fair scheduler at a transmit power of -300 dBm,
    both capacities of the first step are 0, the total weight is 0, and
    each allocated bandwidth is the quotient of 0 by 0 times the total
    bandwidth, which is NaN in the program: the allocation has no entry
    that is at least 0 and does not add up to the total bandwidth. *)
Theorem starved_allocation_is_zero_over_zero :
  valid_config starved_pf_sim /\ fresh starved_pf_sim /\
  inst_caps (link_phase starved_pf_sim (demo_fading 0%nat) 0
               (ues starved_pf_sim)) = [0; 0] /\
  sum (pf_weights
         (inst_caps (link_phase starved_pf_sim (demo_fading 0%nat) 0
                       (ues starved_pf_sim)))
         (linked (link_phase starved_pf_sim (demo_fading 0%nat) 0
                    (ues starved_pf_sim)))) = 0 /\
  bw_alloc_of starved_pf_sim (demo_fading 0%nat) (ues starved_pf_sim)
  = inr [0 / 0 * total_bw_hz starved_pf_sim;
         0 / 0 * total_bw_hz starved_pf_sim].
Proof.
  split; [valid_by_evaluation|]. split; [fresh_by_evaluation|].
  split; [exact starved_caps|]. exact starved_shares.
Qed.

(** C6 fails in the code, on the same configuration: the throughput
    sample of the first step is computed from the bandwidth 0/0 (NaN in the
    program), and it is this sample that the update of the average
    throughput takes in, for both terminals; the program's averages are
    NaN after the step, not positive numbers. *)
Theorem starved_average_takes_zero_over_zero :
  valid_config starved_pf_sim /\ fresh starved_pf_sim /\
  exists ue0 ue1,
    run starved_pf_sim demo_fading = Ok [ue0; ue1] /\
    throughput_history ue0 = [0 / 0 * 20e6 * Np.log2 1 / 1e6] /\
    avg_throughput ue0
      = 0.9 * 1e-6 + 0.1 * (0 / 0 * 20e6 * Np.log2 1 / 1e6) /\
    throughput_history ue1 = [0 / 0 * 20e6 * Np.log2 1 / 1e6] /\
    avg_throughput ue1
      = 0.9 * 1e-6 + 0.1 * (0 / 0 * 20e6 * Np.log2 1 / 1e6).
Proof.
  split; [valid_by_evaluation|]. split; [fresh_by_evaluation|].
  destruct starved_shares as (_ & Halloc).
  unfold bw_alloc_of in Halloc. cbv zeta in Halloc.
  unfold run.
  change (Z.to_nat (sim_steps starved_pf_sim)) with 1%nat.
  cbn [run_steps]. unfold step. cbv zeta. rewrite Halloc.
  do 2 eexists. split; [reflexivity|].
  assert (forall d, 10 <= d <= 1000 -> forall i,
            one_plus (snr_lin_of (snr_db_of starved_pf_sim 1 (UE_init i d)))
            = 1) as Habs.
  { intros d Hd i. apply one_plus_absorbed, starved_link_absorbed.
    cbn [distance UE_init]. exact Hd. }
  cbn [throughput_history avg_throughput metrics_ue append_snr UE_init app].
  unfold throughput_mbps_of, cap_bps_of, demo_fading.
  change (IZR (Np.randint 50 500 (demo_draws 0))) with 50.
  change (IZR (Np.randint 50 500 (demo_draws 1))) with 150.
  rewrite (Habs 50 ltac:(lra)), (Habs 150 ltac:(lra)).
  repeat split; reflexivity.
Qed.

(** C9 fails in the code, on the same configuration: one of the divisors
    of the first step is exactly 0, the total weight by which line 97
    divides each weight, although the configuration is valid and every
    Rayleigh sample is positive.  No floor covers this divisor. *)
Theorem starved_step_divides_by_zero :
  valid_config starved_pf_sim /\ fresh starved_pf_sim /\
  (forall t i, 0 < demo_fading t i) /\
  In (Divisor 0)
     (snd (step_t starved_pf_sim (demo_fading 0%nat) (ues starved_pf_sim))) /\
  ~ Forall operand_ok
      (snd (step_t starved_pf_sim (demo_fading 0%nat) (ues starved_pf_sim))).
Proof.
  split; [valid_by_evaluation|]. split; [fresh_by_evaluation|].
  split; [intros t i; unfold demo_fading; lra|].
  assert (In (Divisor 0)
            (snd (step_t starved_pf_sim (demo_fading 0%nat)
                    (ues starved_pf_sim)))) as Hin.
  { destruct starved_shares as (Hsum & _). rewrite <- Hsum at 1.
    exact (total_weight_is_divisor starved_pf_sim (demo_fading 0%nat)
             (UE_init 0 50) [UE_init 1 150] eq_refl). }
  split; [exact Hin|].
  intros Hall. rewrite Forall_forall in Hall.
  specialize (Hall _ Hin). simpl in Hall. lra.
Qed.

(** After the first step of [fading_out_sim] the closer terminal has the
    higher average throughput. *)
Lemma first_step_averages (B a x L0 L1 : R) :
  0 < B -> 0 < a -> 0 < L1 -> L1 < L0 ->
  0.9 * x + 0.1 * (B * L1 / a / sum [B * L0 / a; B * L1 / a] * B * L1 / 1e6)
  < 0.9 * x
    + 0.1 * (B * L0 / a / sum [B * L0 / a; B * L1 / a] * B * L0 / 1e6).
Proof.
  intros HB Ha H1 H10.
  assert (0 < B * L1) as Hc1 by now apply Rmult_lt_0_compat.
  assert (B * L1 < B * L0) as Hc by (apply Rmult_lt_compat_l; lra).
  assert (0 < B * L1 / a) as Hw1 by (apply Rdiv_lt_0_compat; lra).
  assert (0 < B * L0 / a) as Hw0 by (apply Rdiv_lt_0_compat; lra).
  assert (0 < sum [B * L0 / a; B * L1 / a]) as HW
    by (unfold sum; simpl; lra).
  set (W := sum [B * L0 / a; B * L1 / a]) in *.
  pose proof (share_strictly_monotone (B * L1) (B * L0) a W B Hc Ha HW HB)
    as Hb.
  assert (0 < B * L1 / a / W * B) as Hb1.
  { apply Rmult_lt_0_compat; [|assumption]. now apply Rdiv_lt_0_compat. }
  set (b1 := B * L1 / a / W * B) in *.
  set (b0 := B * L0 / a / W * B) in *.
  assert (b1 * L1 < b0 * L0) as Hprod.
  { apply Rle_lt_trans with (b1 * L0).
    - apply Rmult_le_compat_l; lra.
    - apply Rmult_lt_compat_r; lra. }
  lra.
Qed.

(** C4 fails in the code, on a valid configuration: two terminals at 50 m
    and 150 m under the proportional-fair scheduler at -30 dBm, with
    Rayleigh samples of 1 in the first step and of 0 in the second.  After
    the first step the farther terminal has the strictly lower average.
    In the second step both capacities are 0, hence identical, the total
    weight is 0, and both bandwidths are the quotient of 0 by 0, which is
    NaN in the program: the bandwidth of the terminal with the lower
    average is not greater than or equal to the other's. *)
Theorem equal_capacities_shares_are_zero_over_zero :
  valid_config fading_out_sim /\ fresh fading_out_sim /\
  (forall t i, 0 <= fade_out t i) /\
  exists ueB ueA,
    state_after fading_out_sim fade_out 1 = Ok [ueB; ueA] /\
    avg_throughput ueA < avg_throughput ueB /\
    inst_caps (link_phase fading_out_sim (fade_out 1%nat) 0 [ueB; ueA])
      = [0; 0] /\
    sum (pf_weights
           (inst_caps (link_phase fading_out_sim (fade_out 1%nat) 0
                         [ueB; ueA]))
           (linked (link_phase fading_out_sim (fade_out 1%nat) 0
                      [ueB; ueA]))) = 0 /\
    bw_alloc_of fading_out_sim (fade_out 1%nat) [ueB; ueA]
    = inr [0 / 0 * total_bw_hz fading_out_sim;
           0 / 0 * total_bw_hz fading_out_sim].
Proof.
  split; [valid_by_evaluation|]. split; [fresh_by_evaluation|].
  split; [intros [|t] i; simpl; lra|].
  do 2 eexists. split; [reflexivity|].
  set (s0 := snr_lin_of (snr_db_of fading_out_sim 1 (UE_init 0 50))).
  set (s1 := snr_lin_of (snr_db_of fading_out_sim 1 (UE_init 1 150))).
  assert (link_resolved s1) as (Hr1 & _)
    by (apply fading_out_link_resolved; cbn [distance UE_init]; lra).
  assert (s1 < s0) as H10.
  { apply snr_lin_increasing, snr_db_closer; cbn [distance UE_init]; lra. }
  pose proof (log2_one_plus_pos s1 Hr1) as HL1.
  pose proof (log2_one_plus_increasing s1 s0 H10 ltac:(lra)) as HL.
  split.
  { exact (first_step_averages 20e6 (1e-6 + 1e-9) 1e-6 _ _
             ltac:(lra) ltac:(lra) HL1 HL). }
  match goal with
  | |- inst_caps (link_phase _ _ _ ?us) = _ /\ _ => set (us1 := us)
  end.
  assert (inst_caps (link_phase fading_out_sim (fade_out 1%nat) 0 us1)
          = [0; 0]) as Hcaps.
  { change (inst_caps (link_phase fading_out_sim (fade_out 1%nat) 0 us1))
      with [cap_of fading_out_sim
              (snr_lin_of (snr_db_of fading_out_sim 0 (UE_init 0 50)));
            cap_of fading_out_sim
              (snr_lin_of (snr_db_of fading_out_sim 0 (UE_init 1 150)))].
    rewrite !cap_of_absorbed
      by (apply fading_out_link_absorbed; cbn [distance UE_init]; lra).
    reflexivity. }
  split; [exact Hcaps|].
  unfold bw_alloc_of. cbv zeta. rewrite Hcaps.
  apply (allocate_starved fading_out_sim [0; 0]); [reflexivity|].
  repeat constructor.
Qed.

(** * Further properties of the code *)

(** ** The channel model *)

(** X1.  The path loss is the loss at the reference distance of 1 m plus
    30 dB per decade of distance: at 1 m it is the reference loss, scaling
    a positive distance by [k] adds [30 * log10 k], so ten times the
    distance costs exactly 30 dB. *)
Theorem path_loss_per_decade (d k f : R) :
  0 < d -> 0 < k ->
  path_loss_db 1 f = 20 * Np.log10 (4 * Np.pi * 1 * f / 3e8) /\
  path_loss_db (k * d) f = path_loss_db d f + 30 * Np.log10 k /\
  path_loss_db (10 * d) f = path_loss_db d f + 30.
Proof.
  intros Hd Hk.
  assert (forall x, 0 < x ->
            path_loss_db (x * d) f = path_loss_db d f + 30 * Np.log10 x) as H.
  { intros x Hx. unfold path_loss_db.
    replace (x * d / 1) with (x * (d / 1)) by (field; lra).
    rewrite log10_mult by lra. lra. }
  split; [|split].
  - unfold path_loss_db. replace (1 / 1) with 1 by lra.
    unfold Np.log10 at 2. rewrite ln_1. lra.
  - now apply H.
  - rewrite H by lra. rewrite log10_10. lra.
Qed.

Lemma path_loss_per_decade_witness :
  0 < 100 /\ 0 < 2 /\
  path_loss_db 1 f_default
    = 20 * Np.log10 (4 * Np.pi * 1 * f_default / 3e8) /\
  path_loss_db (2 * 100) f_default
    = path_loss_db 100 f_default + 30 * Np.log10 2 /\
  path_loss_db (10 * 100) f_default = path_loss_db 100 f_default + 30.
Proof.
  assert (0 < 100) as Hd by lra. assert (0 < 2) as Hk by lra.
  split; [exact Hd|]. split; [exact Hk|].
  exact (path_loss_per_decade 100 2 f_default Hd Hk).
Defined.

(** X2.  The path loss grows strictly with the distance. *)
Theorem path_loss_increasing (d1 d2 f : R) :
  0 < d1 -> d1 < d2 -> path_loss_db d1 f < path_loss_db d2 f.
Proof. apply path_loss_db_lt. Qed.

Lemma path_loss_increasing_witness :
  0 < 50 /\ 50 < 450 /\
  path_loss_db 50 f_default < path_loss_db 450 f_default.
Proof.
  assert (0 < 50) as H1 by lra. assert (50 < 450) as H2 by lra.
  split; [exact H1|]. split; [exact H2|].
  exact (path_loss_increasing 50 450 f_default H1 H2).
Defined.

(** X3.  The noise power grows strictly with the bandwidth, by exactly
    10 dB for ten times the bandwidth. *)
Theorem noise_power_per_decade (self : FiveGSimulator) (bw1 bw2 : R) :
  0 < bw1 -> bw1 < bw2 ->
  noise_power_dbm self bw1 < noise_power_dbm self bw2 /\
  noise_power_dbm self (10 * bw1) = noise_power_dbm self bw1 + 10.
Proof.
  intros H1 H12. unfold noise_power_dbm. split.
  - assert (Np.log10 bw1 < Np.log10 bw2) by now apply log10_increasing.
    lra.
  - rewrite log10_mult by lra. rewrite log10_10. lra.
Qed.

Lemma noise_power_per_decade_witness :
  0 < 10e6 /\ 10e6 < 20e6 /\
  noise_power_dbm (main_sim demo_draws) 10e6
    < noise_power_dbm (main_sim demo_draws) 20e6 /\
  noise_power_dbm (main_sim demo_draws) (10 * 10e6)
    = noise_power_dbm (main_sim demo_draws) 10e6 + 10.
Proof.
  assert (0 < 10e6) as H1 by lra. assert (10e6 < 20e6) as H2 by lra.
  split; [exact H1|]. split; [exact H2|].
  exact (noise_power_per_decade (main_sim demo_draws) 10e6 20e6 H1 H2).
Defined.

(** X4.  The SNR recorded in dB and the linear SNR used for the capacity
    are the same quantity: ten times the decimal logarithm of the linear
    SNR gives the dB value back. *)
Theorem snr_db_round_trip (snr_db : R) :
  10 * Np.log10 (snr_lin_of snr_db) = snr_db.
Proof.
  unfold snr_lin_of, Np.power, Rpower, Np.log10. rewrite ln_exp.
  pose proof ln10_pos. field. lra.
Qed.





(** ** What every run keeps, whatever the configuration *)

Section Related.

Variable Rel : UE -> UE -> Prop.

Hypothesis Rel_refl : forall ue, Rel ue ue.
Hypothesis Rel_trans : forall a b c, Rel a b -> Rel b c -> Rel a c.
Hypothesis Rel_link : forall ue snr_db, Rel ue (append_snr ue snr_db).
Hypothesis Rel_metrics : forall ue bw s, Rel ue (metrics_ue ue bw s).

Lemma Forall2_Rel_refl (us : list UE) : Forall2 Rel us us.
Proof. induction us; constructor; auto. Qed.

Lemma Forall2_Rel_trans (xs ys zs : list UE) :
  Forall2 Rel xs ys -> Forall2 Rel ys zs -> Forall2 Rel xs zs.
Proof.
  intros H. revert zs. induction H as [|x y xs ys Hxy _ IH]; intros zs Hz.
  - inversion Hz. constructor.
  - inversion Hz as [|? z ? zs' Hyz Hrest]; subst.
    constructor; [eapply Rel_trans; eassumption | now apply IH].
Qed.

Lemma link_phase_related (self : FiveGSimulator) (f : nat -> R) (i : nat)
    (us : list UE) :
  Forall2 Rel us (linked (link_phase self f i us)).
Proof.
  revert i. induction us as [|ue us IH]; intros i; simpl; constructor; auto.
Qed.

Lemma metrics_phase_related (us : list UE) (bw ss cs : list R) :
  Forall2 Rel us (metrics_phase us bw ss cs).
Proof.
  revert bw ss cs. induction us as [|ue us IH]; intros bw ss cs.
  - constructor.
  - destruct bw, ss, cs; simpl; try apply Forall2_Rel_refl.
    constructor; auto.
Qed.

Lemma step_related (self : FiveGSimulator) (f : nat -> R) (us : list UE) :
  Forall2 Rel us (terminals_of (step self f us)).
Proof.
  unfold step. destruct (allocate self _ _); simpl.
  - apply link_phase_related.
  - eapply Forall2_Rel_trans;
      [apply link_phase_related | apply metrics_phase_related].
Qed.

Lemma run_steps_related (self : FiveGSimulator) (fading : nat -> nat -> R)
    (t n : nat) (us : list UE) :
  Forall2 Rel us (terminals_of (run_steps self fading t n us)).
Proof.
  revert t us. induction n as [|n IH]; intros t us.
  - apply Forall2_Rel_refl.
  - change (run_steps self fading t (S n) us) with
      (match step self (fading t) us with
       | Ok us' => run_steps self fading (S t) n us'
       | Raised e us' => Raised e us'
       end).
    pose proof (step_related self (fading t) us) as Hs.
    destruct (step self (fading t) us) as [us'|e us']; simpl in Hs.
    + eapply Forall2_Rel_trans; [exact Hs | apply IH].
    + exact Hs.
Qed.

End Related.

Lemma Forall2_map_eq {A B : Type} (g : A -> B) (xs ys : list A) :
  Forall2 (fun x y => g y = g x) xs ys -> map g ys = map g xs.
Proof. induction 1; simpl; congruence. Qed.

Lemma run_keeps_terminals (self : FiveGSimulator)
    (fading : nat -> nat -> R) (k : nat) :
  length (terminals_of (state_after self fading k)) = length (ues self) /\
  map id (terminals_of (state_after self fading k)) = map id (ues self) /\
  map distance (terminals_of (state_after self fading k))
    = map distance (ues self) /\
  Forall2 same_terminal (ues self) (terminals_of (state_after self fading k)).
Proof.
  assert (Forall2 same_terminal (ues self)
            (terminals_of (state_after self fading k))) as H.
  { apply run_steps_related; unfold same_terminal.
    - auto.
    - intros a b c (H1 & H2) (H3 & H4). split; congruence.
    - intros; simpl; auto.
    - intros; simpl; auto. }
  split; [|split; [|split; [|exact H]]].
  - symmetry. eapply Forall2_length, H.
  - apply Forall2_map_eq. eapply Forall2_impl; [|exact H].
    now intros a b (H1 & _).
  - apply Forall2_map_eq. eapply Forall2_impl; [|exact H].
    now intros a b (_ & H2).
Qed.

(** *** Runs in which every link is resolved *)

Lemma Forall2_nth_error_right {A B : Type} (P : A -> B -> Prop)
    (xs : list A) (ys : list B) (i : nat) (y : B) :
  Forall2 P xs ys -> nth_error ys i = Some y ->
  exists x, nth_error xs i = Some x /\ P x y.
Proof.
  intros H. revert i. induction H as [|x0 y0 xs ys H0 _ IH]; intros i Hy.
  - destruct i; discriminate.
  - destruct i as [|i]; simpl in *.
    + injection Hy as <-. eauto.
    + now apply IH.
Qed.

Lemma well_conditioned_earlier (self : FiveGSimulator)
    (fading : nat -> nat -> R) (k k' : nat) :
  (k' <= k)%nat -> well_conditioned self fading k ->
  well_conditioned self fading k'.
Proof.
  intros Hk (HB & Hd & Hres). split; [exact HB|]. split; [exact Hd|].
  intros t i ue Ht. apply Hres. lia.
Qed.

(** The terminals keep their distances, so the links of step [k] are those
    of the terminals the constructor placed. *)
Lemma reachable_resolved (self : FiveGSimulator) (fading : nat -> nat -> R)
    (k : nat) :
  valid_config self -> fresh self -> well_conditioned self fading (S k) ->
  exists us,
    state_after self fading k = Ok us /\ run_invariant self k us /\
    forall i ue, nth_error us i = Some ue ->
      link_resolved (snr_lin_of (snr_db_of self (fading k i) ue)).
Proof.
  intros Hv Hf (_ & _ & Hres).
  destruct (reachable_invariant self fading k Hv Hf) as (us & Hrun & Hinv).
  exists us. split; [exact Hrun|]. split; [exact Hinv|].
  intros i ue Hue.
  pose proof (run_keeps_terminals self fading k) as (_ & _ & _ & Hsame).
  rewrite Hrun in Hsame. cbn [terminals_of] in Hsame.
  destruct (Forall2_nth_error_right _ _ _ _ _ Hsame Hue)
    as (ue0 & Hue0 & _ & Hd).
  rewrite (snr_db_same_distance self (fading k i) ue0 ue Hd).
  apply (Hres k i ue0); [lia | exact Hue0].
Qed.

(** One step of such a run: the allocation adds up to the total bandwidth
    and gives every terminal a positive share. *)
Lemma resolved_step (self : FiveGSimulator) (fading : nat -> nat -> R)
    (k : nat) :
  valid_config self -> fresh self -> well_conditioned self fading (S k) ->
  exists us bw us',
    state_after self fading k = Ok us /\ run_invariant self k us /\
    bw_alloc_of self (fading k) us = inr bw /\
    length bw = length us /\
    sum bw = total_bw_hz self /\
    state_after self fading (S k) = Ok us' /\
    forall i ue, nth_error us i = Some ue ->
      link_resolved (snr_lin_of (snr_db_of self (fading k i) ue)) /\
      exists b, nth_error bw i = Some b /\ 0 < b /\
                nth_error us' i = Some (next_ue self (fading k i) ue b).
Proof.
  intros Hv Hf Hwc.
  destruct (reachable_resolved self fading k Hv Hf Hwc)
    as (us & Hrun & Hinv & Hres).
  pose proof Hinv as (Hlen & Havg & _).
  assert (forall i ue, nth_error us i = Some ue ->
            absorb_threshold < snr_lin_of (snr_db_of self (fading k i) ue))
    as Hres'.
  { intros i ue Hue. apply (Hres i ue Hue). }
  destruct (alloc_resolved self (fading k) us Hv Hlen Havg Hres')
    as (bw0 & Hbw0 & Hl & _ & _).
  destruct (step_resolved self (fading k) us Hv Hlen Havg Hres')
    as (bw & us' & Hbw & Hsum & Hstep & _ & Hnth).
  assert (bw0 = bw) as -> by congruence.
  exists us, bw, us'.
  split; [exact Hrun|]. split; [exact Hinv|]. split; [exact Hbw|].
  split; [exact Hl|]. split; [exact Hsum|]. split.
  - unfold state_after in *. now rewrite run_steps_snoc, Hrun.
  - intros i ue Hue. split; [now apply (Hres i ue) | now apply Hnth].
Qed.

(** X7.  Whatever the configuration and whether the run completes or
    raises, it never creates, removes, renames or moves a terminal: after
    any number of steps the terminals are as many as before, with the same
    identifiers at the same distances, in the same order. *)
Theorem terminals_never_change (self : FiveGSimulator)
    (fading : nat -> nat -> R) (k : nat) :
  length (terminals_of (state_after self fading k)) = length (ues self) /\
  map id (terminals_of (state_after self fading k)) = map id (ues self) /\
  map distance (terminals_of (state_after self fading k))
    = map distance (ues self) /\
  Forall2 same_terminal (ues self) (terminals_of (state_after self fading k)).
Proof. apply run_keeps_terminals. Qed.

(** X8.  Histories are append-only: whatever the configuration and the
    outcome, after any number of steps each history of each terminal is
    the history it had before with samples added at its end. *)
Theorem histories_append_only (self : FiveGSimulator)
    (fading : nat -> nat -> R) (k : nat) :
  Forall2 history_extends (ues self)
          (terminals_of (state_after self fading k)).
Proof.
  apply run_steps_related; unfold history_extends.
  - intros ue. repeat split; exists []; now rewrite app_nil_r.
  - intros a b c ((t1 & H1) & (l1 & H2) & (s1 & H3))
                 ((t2 & H4) & (l2 & H5) & (s2 & H6)).
    repeat split.
    + exists (t1 ++ t2). now rewrite H4, H1, app_assoc.
    + exists (l1 ++ l2). now rewrite H5, H2, app_assoc.
    + exists (s1 ++ s2). now rewrite H6, H3, app_assoc.
  - intros ue s. simpl. repeat split; try (exists []; now rewrite app_nil_r).
    now exists [s].
  - intros ue bw s. simpl. repeat split; try (now eexists).
    exists []. now rewrite app_nil_r.
Qed.

Lemma run_keeps_ema (self : FiveGSimulator)
    (fading : nat -> nat -> R) (k : nat) :
  Forall (fun ue => avg_throughput ue
                    = ema_of_history (throughput_history ue)) (ues self) ->
  Forall (fun ue => avg_throughput ue
                    = ema_of_history (throughput_history ue))
         (terminals_of (state_after self fading k)).
Proof.
  intros H0.
  assert (Forall2 (fun ue ue' =>
            avg_throughput ue = ema_of_history (throughput_history ue) ->
            avg_throughput ue' = ema_of_history (throughput_history ue'))
            (ues self) (terminals_of (state_after self fading k))) as H.
  { apply run_steps_related.
    - auto.
    - auto.
    - intros ue s. simpl. auto.
    - intros ue bw s Hu. simpl. unfold ema_of_history in *.
      rewrite fold_left_app. simpl. now rewrite <- Hu. }
  revert H0. induction H as [|ue ue' us us' Hu _ IH]; intros H0.
  - constructor.
  - inversion H0; subst. constructor; auto.
Qed.

(** X9.  The moving average is a function of the throughput history: for
    terminals that start with it (as fresh terminals do), after any number
    of steps, whatever the configuration and the outcome, the average
    throughput of a terminal is the exponential moving average of its
    throughput history, taken in order from 1e-6. *)
Theorem avg_throughput_follows_history (self : FiveGSimulator)
    (fading : nat -> nat -> R) (k : nat) :
  Forall (fun ue => avg_throughput ue
                    = ema_of_history (throughput_history ue)) (ues self) ->
  Forall (fun ue => avg_throughput ue
                    = ema_of_history (throughput_history ue))
         (terminals_of (state_after self fading k)).
Proof. apply run_keeps_ema. Qed.

Lemma avg_throughput_follows_history_witness :
  Forall (fun ue => avg_throughput ue
                    = ema_of_history (throughput_history ue))
         (ues (main_sim demo_draws)) /\
  Forall (fun ue => avg_throughput ue
                    = ema_of_history (throughput_history ue))
         (terminals_of (state_after (main_sim demo_draws) demo_fading 3)).
Proof.
  assert (Forall (fun ue => avg_throughput ue
                            = ema_of_history (throughput_history ue))
                 (ues (main_sim demo_draws))) as H0
    by (repeat constructor).
  split; [exact H0|].
  exact (avg_throughput_follows_history (main_sim demo_draws) demo_fading 3
           H0).
Defined.

Lemma ema_fold_bounds (lo hi a : R) (h : list R) :
  lo <= a <= hi -> Forall (fun s => lo <= s <= hi) h ->
  lo <= fold_left (fun a s => 0.9 * a + 0.1 * s) h a <= hi.
Proof.
  intros Ha Hh. revert a Ha. induction Hh as [|s h Hs _ IH]; intros a Ha.
  - exact Ha.
  - simpl. apply IH. lra.
Qed.

(** X10.  The moving average never leaves the range of what it averages:
    for terminals that start as fresh ones do, after any number of steps a
    terminal's average throughput lies between any two bounds that enclose
    1e-6 and all of its throughput samples. *)
Theorem avg_throughput_within_samples (self : FiveGSimulator)
    (fading : nat -> nat -> R) (k : nat) (lo hi : R) :
  Forall (fun ue => avg_throughput ue
                    = ema_of_history (throughput_history ue)) (ues self) ->
  lo <= 1e-6 <= hi ->
  Forall (fun ue =>
            Forall (fun s => lo <= s <= hi) (throughput_history ue) ->
            lo <= avg_throughput ue <= hi)
         (terminals_of (state_after self fading k)).
Proof.
  intros H0 Hb.
  pose proof (run_keeps_ema self fading k H0) as H.
  eapply Forall_impl; [|exact H]. simpl. intros ue -> Hs.
  now apply ema_fold_bounds.
Qed.

Lemma avg_throughput_within_samples_witness :
  Forall (fun ue => avg_throughput ue
                    = ema_of_history (throughput_history ue))
         (ues (main_sim demo_draws)) /\
  0 <= 1e-6 <= 1000 /\
  Forall (fun ue =>
            Forall (fun s => 0 <= s <= 1000) (throughput_history ue) ->
            0 <= avg_throughput ue <= 1000)
         (terminals_of (state_after (main_sim demo_draws) demo_fading 3)).
Proof.
  assert (Forall (fun ue => avg_throughput ue
                            = ema_of_history (throughput_history ue))
                 (ues (main_sim demo_draws))) as H0
    by (repeat constructor).
  assert (0 <= 1e-6 <= 1000) as Hb by lra.
  split; [exact H0|]. split; [exact Hb|].
  exact (avg_throughput_within_samples (main_sim demo_draws) demo_fading 3
           0 1000 H0 Hb).
Defined.

(** ** Runs from a valid configuration *)

Lemma Ok_inj (us us' : list UE) : Ok us = Ok us' -> us = us'.
Proof. now intros [= ->]. Qed.

(** A property of terminals that every step keeps, for positive allocated
    bandwidths on resolved links, holds throughout a run from a valid
    configuration whose links are resolved. *)
Lemma reachable_Forall (P : UE -> Prop) (self : FiveGSimulator)
    (fading : nat -> nat -> R) :
  valid_config self -> fresh self -> Forall P (ues self) ->
  (forall fad ue b,
     P ue -> 0 < b -> link_resolved (snr_lin_of (snr_db_of self fad ue)) ->
     P (next_ue self fad ue b)) ->
  forall k, well_conditioned self fading k ->
    exists us, state_after self fading k = Ok us /\ Forall P us.
Proof.
  intros Hv Hf H0 Hkeep k. induction k as [|k IH]; intros Hwc.
  - exists (ues self). split; [reflexivity | exact H0].
  - destruct IH as (us & Hrun & HP).
    { eapply well_conditioned_earlier; [|exact Hwc]. lia. }
    destruct (resolved_step self fading k Hv Hf Hwc)
      as (us0 & bw & us' & Hrun0 & (Hlen & _) & _ & _ & _ & Hrun' & Hnth).
    assert (us0 = us) as -> by (apply Ok_inj; congruence).
    exists us'. split; [exact Hrun'|].
    pose proof (reachable_invariant self fading (S k) Hv Hf)
      as (us1 & Hrun1 & Hlen' & _).
    assert (us1 = us') as -> by (apply Ok_inj; congruence).
    apply Forall_by_nth. intros i u' Hu'.
    destruct (nth_error_defined us i) as [ue Hue].
    { rewrite Hlen, <- Hlen'. apply nth_error_Some. congruence. }
    destruct (Hnth i ue Hue) as (Hres & b & _ & Hb & Hn).
    assert (u' = next_ue self (fading k i) ue b) as -> by congruence.
    apply Hkeep; [|assumption|assumption].
    eapply Forall_nth_error_inv in HP; [exact HP | exact Hue].
Qed.

(** The throughput and latency samples of a terminal stay clear of their
    lower ends. *)
Lemma samples_clear (self : FiveGSimulator) (fading : nat -> nat -> R)
    (k : nat) :
  valid_config self -> fresh self -> well_conditioned self fading k ->
  exists us,
    state_after self fading k = Ok us /\
    Forall (fun ue =>
              Forall (fun s => 0 < s) (throughput_history ue) /\
              Forall (fun l => latency_floor_ms ue < l) (latency_history ue))
           us.
Proof.
  intros Hv Hf. apply reachable_Forall; try assumption.
  - destruct Hf as (_ & Hall). eapply Forall_impl; [|exact Hall].
    intros ue (_ & -> & -> & _). split; constructor.
  - intros fad ue b (Ht & Hl) Hb (Hs & _).
    pose proof (cap_bps_pos b _ Hb Hs) as Hcap.
    unfold next_ue. simpl. split; apply Forall_app; split;
      try assumption; repeat constructor.
    + now apply throughput_pos.
    + unfold latency_floor_ms, latency_ms_of. simpl.
      assert (0 < 1e6 / (cap_bps_of b (snr_lin_of (snr_db_of self fad ue))
                         + 1e-9))
        by (apply Rdiv_lt_0_compat; lra).
      lra.
Qed.

(** The constructor's defaults for bandwidth, power, noise figure and MIMO
    gain, with Rayleigh samples between 0.001 and 9: every link of every
    step is resolved. *)
Lemma defaults_well_conditioned (n : Z) (sch : string) (steps : Z)
    (out : string) (draws : nat -> Z) (fading : nat -> nat -> R) (k : nat) :
  (forall t i, 1e-3 <= fading t i <= 9) ->
  well_conditioned (FiveGSimulator_init n 20e6 43 7 2 sch steps out draws)
                   fading k.
Proof.
  intros Hfad. split; [cbn [total_bw_hz FiveGSimulator_init]; lra|].
  split.
  { apply Forall_by_nth. intros i ue Hue.
    apply init_ues_nth in Hue. destruct Hue as (_ & ->).
    pose proof (randint_range 50 500 (draws i) ltac:(lia)) as (_ & Hhi).
    apply IZR_lt in Hhi. cbn [distance UE_init]. lra. }
  intros t i ue _ Hue. apply init_ues_nth in Hue. destruct Hue as (_ & ->).
  pose proof (randint_range 50 500 (draws i) ltac:(lia)) as (Hlo & Hhi).
  apply IZR_le in Hlo. apply IZR_lt in Hhi.
  apply typical_link_resolved;
    cbn [distance UE_init mimo_gain total_bw_hz tx_power_dbm noise_fig_db
         FiveGSimulator_init]; try lra.
  apply Hfad.
Qed.

Lemma demo_fading_typical : forall t i : nat, 1e-3 <= demo_fading t i <= 9.
Proof. intros t i. unfold demo_fading. lra. Qed.

(** X11.  No terminal is starved and no latency is below its floor: in a
    run from a valid configuration whose links are resolved, after any
    number of steps every throughput sample of every terminal is strictly
    positive, and every latency sample is strictly above the terminal's
    propagation delay plus the 1 ms processing delay. *)
Theorem no_starvation (self : FiveGSimulator) (fading : nat -> nat -> R)
    (k : nat) :
  valid_config self -> fresh self -> well_conditioned self fading k ->
  exists us,
    state_after self fading k = Ok us /\
    Forall (fun ue =>
              Forall (fun s => 0 < s) (throughput_history ue) /\
              Forall (fun l => latency_floor_ms ue < l) (latency_history ue))
           us.
Proof. apply samples_clear. Qed.

Lemma no_starvation_witness :
  valid_config (main_sim demo_draws) /\ fresh (main_sim demo_draws) /\
  well_conditioned (main_sim demo_draws) demo_fading 3 /\
  exists us,
    state_after (main_sim demo_draws) demo_fading 3 = Ok us /\
    Forall (fun ue =>
              Forall (fun s => 0 < s) (throughput_history ue) /\
              Forall (fun l => latency_floor_ms ue < l) (latency_history ue))
           us.
Proof.
  assert (valid_config (main_sim demo_draws)) as Hv by valid_by_evaluation.
  assert (fresh (main_sim demo_draws)) as Hf by fresh_by_evaluation.
  assert (well_conditioned (main_sim demo_draws) demo_fading 3) as Hw
    by (apply defaults_well_conditioned, demo_fading_typical).
  split; [exact Hv|]. split; [exact Hf|]. split; [exact Hw|].
  exact (no_starvation (main_sim demo_draws) demo_fading 3 Hv Hf Hw).
Defined.

(** ** Failures *)

Lemma step_ok_config (self : FiveGSimulator) (f : nat -> R) (us u : list UE) :
  step self f us = Ok u ->
  recognised self /\ (scheduler self = "equal"%string -> num_ues self <> 0%Z).
Proof.
  unfold step, allocate, recognised.
  destruct (String.eqb_spec (scheduler self) "equal") as [E|E].
  - destruct (Z.eqb_spec (num_ues self) 0); [discriminate|]. auto.
  - destruct (String.eqb_spec (scheduler self) "pf") as [E'|E'];
      [|discriminate].
    intros _. split; [now right | congruence].
Qed.

Lemma step_raised_linked (self : FiveGSimulator) (f : nat -> R)
    (us u : list UE) (e : exn) :
  step self f us = Raised e u -> u = linked (link_phase self f 0 us).
Proof.
  unfold step. destruct (allocate self _ _); [|discriminate].
  now intros [= _ <-].
Qed.

(** X12.  A run can only fail in its first step: if it raises, at least
    one step was asked for, the exception and the terminals are those of
    the first step, and that step had not yet touched any throughput
    history, latency history or average. *)
Theorem run_fails_only_in_first_step (self : FiveGSimulator)
    (fading : nat -> nat -> R) (e : exn) (us : list UE) :
  run self fading = Raised e us ->
  (0 < sim_steps self)%Z /\
  step self (fading 0%nat) (ues self) = Raised e us /\
  Forall2 (fun ue ue' =>
             throughput_history ue' = throughput_history ue /\
             latency_history ue' = latency_history ue /\
             avg_throughput ue' = avg_throughput ue)
          (ues self) us.
Proof.
  unfold run. intros H.
  destruct (Z.to_nat (sim_steps self)) as [|n] eqn:En; [discriminate H|].
  split; [lia|].
  change (run_steps self fading 0 (S n) (ues self)) with
    (match step self (fading 0%nat) (ues self) with
     | Ok us' => run_steps self fading 1 n us'
     | Raised e us' => Raised e us'
     end) in H.
  destruct (step self (fading 0%nat) (ues self)) as [u|e' u] eqn:Es.
  - destruct (step_ok_config _ _ _ _ Es) as (Hr & Hn).
    destruct (run_steps_complete self fading 1 n u Hr Hn) as (u' & Hu').
    congruence.
  - injection H as -> ->. split; [reflexivity|].
    apply step_raised_linked in Es. subst us.
    eapply Forall2_impl; [|apply link_phase_keeps].
    simpl. intros a b (H1 & H2 & H3 & _). auto.
Qed.

Lemma run_fails_only_in_first_step_witness :
  run foo_sim demo_fading
    = Raised (ValueError "Scheduler must be 'equal' or 'pf'")
             (linked (link_phase foo_sim (demo_fading 0%nat) 0
                        (ues foo_sim))) /\
  (0 < sim_steps foo_sim)%Z /\
  step foo_sim (demo_fading 0%nat) (ues foo_sim)
    = Raised (ValueError "Scheduler must be 'equal' or 'pf'")
             (linked (link_phase foo_sim (demo_fading 0%nat) 0
                        (ues foo_sim))) /\
  Forall2 (fun ue ue' =>
             throughput_history ue' = throughput_history ue /\
             latency_history ue' = latency_history ue /\
             avg_throughput ue' = avg_throughput ue)
          (ues foo_sim)
          (linked (link_phase foo_sim (demo_fading 0%nat) 0 (ues foo_sim))).
Proof.
  assert (run foo_sim demo_fading
          = Raised (ValueError "Scheduler must be 'equal' or 'pf'")
                   (linked (link_phase foo_sim (demo_fading 0%nat) 0
                              (ues foo_sim)))) as H by reflexivity.
  split; [exact H|].
  exact (run_fails_only_in_first_step foo_sim demo_fading _ _ H).
Defined.

(** ** Schedulers compared *)

Lemma step_ok_shape (self : FiveGSimulator) (f : nat -> R) (us u : list UE) :
  step self f us = Ok u ->
  exists bw,
    u = metrics_phase (linked (link_phase self f 0 us)) bw
          (snrs_linear (link_phase self f 0 us))
          (inst_caps (link_phase self f 0 us)).
Proof.
  unfold step. destruct (allocate self _ _) as [e|bw]; [discriminate|].
  intros [= <-]. now exists bw.
Qed.

Lemma metrics_phase_snr (us : list UE) (bw ss cs : list R) :
  map snr_history (metrics_phase us bw ss cs) = map snr_history us.
Proof.
  apply Forall2_map_eq. apply metrics_phase_related; auto.
Qed.

Lemma link_phase_snr_congruence (self1 self2 : FiveGSimulator)
    (f : nat -> R) (i : nat) (us1 us2 : list UE) :
  tx_power_dbm self1 = tx_power_dbm self2 ->
  noise_fig_db self1 = noise_fig_db self2 ->
  mimo_gain self1 = mimo_gain self2 ->
  total_bw_hz self1 = total_bw_hz self2 ->
  map distance us1 = map distance us2 ->
  map snr_history us1 = map snr_history us2 ->
  map snr_history (linked (link_phase self1 f i us1))
  = map snr_history (linked (link_phase self2 f i us2)).
Proof.
  intros Htx Hnf Hmg Hbw. revert i us2.
  induction us1 as [|u1 us1 IH]; intros i [|u2 us2] Hd Hs;
    simpl in Hd, Hs; try discriminate.
  - reflexivity.
  - injection Hd as Hd1 Hd. injection Hs as Hs1 Hs. simpl.
    rewrite (IH (S i) us2 Hd Hs), Hs1. do 2 f_equal. f_equal.
    unfold snr_db_of, noise_power_dbm. now rewrite Htx, Hnf, Hmg, Hbw, Hd1.
Qed.

Lemma step_keeps_distances (self : FiveGSimulator) (f : nat -> R)
    (us : list UE) :
  map distance (terminals_of (step self f us)) = map distance us.
Proof.
  apply Forall2_map_eq.
  apply step_related; simpl; auto. intros; congruence.
Qed.

(** X13.  The recorded SNR does not depend on the scheduler: with the same
    random samples, the run of a simulator and the run of the same
    simulator under the other recognised scheduler record the same SNR
    history for every terminal, after any number of steps. *)
Theorem snr_history_independent_of_scheduler (self : FiveGSimulator)
    (fading : nat -> nat -> R) (s' : string) (k : nat) :
  recognised self -> num_ues self <> 0%Z ->
  s' = "equal"%string \/ s' = "pf"%string ->
  exists us us',
    state_after self fading k = Ok us /\
    state_after (with_scheduler self s') fading k = Ok us' /\
    map snr_history us = map snr_history us'.
Proof.
  intros Hr Hn Hs'.
  assert (exists us us',
            state_after self fading k = Ok us /\
            state_after (with_scheduler self s') fading k = Ok us' /\
            map snr_history us = map snr_history us' /\
            map distance us = map distance us') as H.
  { induction k as [|k (us & us' & H1 & H2 & Hsnr & Hdist)].
    - exists (ues self), (ues self). repeat split; reflexivity.
    - destruct (step_completes self (fading k) us Hr (fun _ => Hn))
        as (u1 & Hu1).
      destruct (step_completes (with_scheduler self s') (fading k) us' Hs'
                  (fun _ => Hn)) as (u2 & Hu2).
      exists u1, u2. unfold state_after in *.
      rewrite !run_steps_snoc, H1, H2. simpl.
      split; [exact Hu1|]. split; [exact Hu2|]. split.
      + destruct (step_ok_shape _ _ _ _ Hu1) as (bw1 & ->).
        destruct (step_ok_shape _ _ _ _ Hu2) as (bw2 & ->).
        rewrite !metrics_phase_snr.
        now apply link_phase_snr_congruence.
      + pose proof (step_keeps_distances self (fading k) us) as D1.
        pose proof (step_keeps_distances (with_scheduler self s')
                      (fading k) us') as D2.
        rewrite Hu1 in D1. rewrite Hu2 in D2. simpl in D1, D2. congruence. }
  destruct H as (us & us' & H1 & H2 & H3 & _). eauto.
Qed.

Lemma snr_history_independent_of_scheduler_witness :
  recognised (main_sim demo_draws) /\ num_ues (main_sim demo_draws) <> 0%Z /\
  ("equal"%string = "equal"%string \/ "equal"%string = "pf"%string) /\
  exists us us',
    state_after (main_sim demo_draws) demo_fading 3 = Ok us /\
    state_after (with_scheduler (main_sim demo_draws) "equal") demo_fading 3
      = Ok us' /\
    map snr_history us = map snr_history us'.
Proof.
  assert (recognised (main_sim demo_draws)) as Hr by (right; reflexivity).
  assert (num_ues (main_sim demo_draws) <> 0%Z) as Hn by (simpl; lia).
  assert ("equal"%string = "equal"%string \/ "equal"%string = "pf"%string)
    as Hs by (left; reflexivity).
  split; [exact Hr|]. split; [exact Hn|]. split; [exact Hs|].
  exact (snr_history_independent_of_scheduler (main_sim demo_draws)
           demo_fading "equal" 3 Hr Hn Hs).
Defined.

(** X14.  The equal-share scheduler decouples the terminals: in runs from
    a valid configuration under it, what a terminal records depends on its
    own Rayleigh samples only.  Two runs whose samples agree for the
    terminal at position [i] leave that terminal in the same state after
    any number of steps, whatever the samples of the others. *)
Theorem equal_share_decouples_terminals (self : FiveGSimulator)
    (f g : nat -> nat -> R) (i k : nat) :
  valid_config self -> fresh self -> scheduler self = "equal"%string ->
  (forall t, f t i = g t i) ->
  exists us us',
    state_after self f k = Ok us /\
    state_after self g k = Ok us' /\
    nth_error us i = nth_error us' i.
Proof.
  intros Hv Hf Heq Hfg.
  induction k as [|k (us & us' & H1 & H2 & Hi)].
  - exists (ues self), (ues self). repeat split; reflexivity.
  - destruct (reachable_invariant self f k Hv Hf)
      as (v & Hv1 & Hlen & Havg & _).
    assert (v = us) as -> by (apply Ok_inj; congruence).
    destruct (reachable_invariant self g k Hv Hf)
      as (v' & Hv2 & Hlen' & Havg' & _).
    assert (v' = us') as -> by (apply Ok_inj; congruence).
    destruct (step_defined self (f k) us Hv Hlen Havg)
      as (bw & u & Hbw & Hstep & Hl & Hpos).
    destruct (step_defined self (g k) us' Hv Hlen' Havg')
      as (bw' & u' & Hbw' & Hstep' & Hl' & Hpos').
    exists u, u'. unfold state_after in *.
    rewrite !run_steps_snoc, H1, H2.
    split; [exact Hstep|]. split; [exact Hstep'|].
    assert (num_ues self <> 0%Z) as Hn
      by (pose proof (valid_num_ues _ Hv); lia).
    unfold bw_alloc_of in Hbw, Hbw'.
    rewrite allocate_equal in Hbw, Hbw' by assumption.
    injection Hbw as <-. injection Hbw' as <-.
    destruct (nth_error us i) as [ue|] eqn:Eu.
    + destruct (Hpos i ue Eu) as (b & Hb & _ & Hn1).
      destruct (Hpos' i ue (eq_sym Hi)) as (b' & Hb' & _ & Hn2).
      rewrite Hb in Hb'. injection Hb' as <-.
      now rewrite Hn1, Hn2, Hfg.
    + assert (nth_error u i = None) as ->
        by (apply nth_error_None; rewrite Hl; now apply nth_error_None).
      symmetry. apply nth_error_None. rewrite Hl'.
      apply nth_error_None. now rewrite <- Hi.
Qed.

Lemma equal_share_decouples_terminals_witness :
  valid_config (with_scheduler (main_sim demo_draws) "equal") /\
  fresh (with_scheduler (main_sim demo_draws) "equal") /\
  scheduler (with_scheduler (main_sim demo_draws) "equal") = "equal"%string /\
  (forall t : nat,
     demo_fading t 0%nat
     = (fun (t : nat) (j : nat) => if Nat.eqb j 0 then 1 else 2) t 0%nat) /\
  exists us us',
    state_after (with_scheduler (main_sim demo_draws) "equal") demo_fading 3
      = Ok us /\
    state_after (with_scheduler (main_sim demo_draws) "equal")
                (fun t j => if Nat.eqb j 0 then 1 else 2) 3 = Ok us' /\
    nth_error us 0 = nth_error us' 0.
Proof.
  assert (valid_config (with_scheduler (main_sim demo_draws) "equal")) as Hv
    by valid_by_evaluation.
  assert (fresh (with_scheduler (main_sim demo_draws) "equal")) as Hf
    by fresh_by_evaluation.
  assert (forall t : nat,
            demo_fading t 0%nat
            = (fun (t : nat) (j : nat) => if Nat.eqb j 0 then 1 else 2)
                t 0%nat) as Hfg by (intros t; reflexivity).
  split; [exact Hv|]. split; [exact Hf|]. split; [reflexivity|].
  split; [exact Hfg|].
  exact (equal_share_decouples_terminals
           (with_scheduler (main_sim demo_draws) "equal") demo_fading
           (fun t j => if Nat.eqb j 0 then 1 else 2) 0 3 Hv Hf eq_refl Hfg).
Defined.

(** ** The proportional-fair scheduler *)

Lemma sum_map_div (d : R) (xs : list R) :
  sum (map (fun c => c / d) xs) = sum xs / d.
Proof.
  induction xs as [|x xs IH]; simpl.
  - unfold sum. simpl. unfold Rdiv. ring.
  - rewrite !sum_cons, IH. unfold Rdiv. ring.
Qed.

Lemma pf_weights_equal_averages (a : R) (caps : list R) (us : list UE) :
  length caps = length us ->
  Forall (fun ue => avg_throughput ue = a) us ->
  pf_weights caps us = map (fun c => c / (a + 1e-9)) caps.
Proof.
  unfold pf_weights. revert us.
  induction caps as [|c caps IH]; intros [|u us] Hlen Hall;
    simpl in Hlen; try discriminate.
  - reflexivity.
  - inversion Hall as [|? ? Hu Hus]; subst. simpl.
    rewrite IH by (assumption || lia). reflexivity.
Qed.

Lemma share_of_equal_weights (c d S B : R) :
  d <> 0 -> S <> 0 -> c / d / (S / d) * B = c / S * B.
Proof. intros Hd HS. field. split; assumption. Qed.

(** X15.  When all terminals have the same average throughput, as in the
    first step of a run, the proportional-fair scheduler shares the
    bandwidth in proportion to the instantaneous capacities: each terminal
    gets its capacity over the sum of the capacities, times the total
    bandwidth. *)
Theorem pf_equal_averages_proportional (self : FiveGSimulator) (a : R)
    (caps : list R) (us : list UE) :
  scheduler self = "pf"%string ->
  length caps = length us ->
  Forall (fun ue => avg_throughput ue = a) us ->
  a + 1e-9 <> 0 -> sum caps <> 0 ->
  allocate self caps us
  = inr (map (fun c => c / sum caps * total_bw_hz self) caps).
Proof.
  intros Hpf Hlen Hall Ha Hs.
  rewrite allocate_pf by assumption.
  rewrite (pf_weights_equal_averages a) by assumption.
  rewrite sum_map_div, map_map. f_equal. apply map_ext. intros c.
  now apply share_of_equal_weights.
Qed.

Lemma pf_equal_averages_proportional_witness :
  scheduler (main_sim demo_draws) = "pf"%string /\
  length [1; 2; 3; 4; 5] = length (ues (main_sim demo_draws)) /\
  Forall (fun ue => avg_throughput ue = 1e-6) (ues (main_sim demo_draws)) /\
  1e-6 + 1e-9 <> 0 /\ sum [1; 2; 3; 4; 5] <> 0 /\
  allocate (main_sim demo_draws) [1; 2; 3; 4; 5] (ues (main_sim demo_draws))
  = inr (map (fun c => c / sum [1; 2; 3; 4; 5]
                       * total_bw_hz (main_sim demo_draws))
             [1; 2; 3; 4; 5]).
Proof.
  assert (Forall (fun ue => avg_throughput ue = 1e-6)
                 (ues (main_sim demo_draws))) as Hall
    by (repeat constructor).
  assert (1e-6 + 1e-9 <> 0) as Ha by lra.
  assert (sum [1; 2; 3; 4; 5] <> 0) as Hs by (unfold sum; simpl; lra).
  split; [reflexivity|]. split; [reflexivity|]. split; [exact Hall|].
  split; [exact Ha|]. split; [exact Hs|].
  exact (pf_equal_averages_proportional (main_sim demo_draws) 1e-6
           [1; 2; 3; 4; 5] (ues (main_sim demo_draws)) eq_refl eq_refl
           Hall Ha Hs).
Defined.



(** ** The bandwidth is shared, not multiplied *)

Lemma link_phase_caps (self : FiveGSimulator) (f : nat -> R) (i : nat)
    (us : list UE) :
  inst_caps (link_phase self f i us)
  = map (cap_of self) (snrs_linear (link_phase self f i us)).
Proof.
  revert i. induction us as [|ue us IH]; intros i; simpl.
  - reflexivity.
  - now rewrite IH.
Qed.

Lemma realised_between (total m M : R) (bw ss : list R) :
  length bw = length ss ->
  Forall (fun b => 0 <= b) bw ->
  Forall (fun s => m <= total * Np.log2 (one_plus s) <= M) ss ->
  sum bw * m <= total * sum (realised_caps bw ss) <= sum bw * M.
Proof.
  revert ss. induction bw as [|b bw IH]; intros [|s ss] Hlen Hb Hs;
    simpl in Hlen; try discriminate.
  - unfold realised_caps, sum. simpl. lra.
  - inversion Hb as [|? ? Hb0 Hb']; subst.
    inversion Hs as [|? ? Hs0 Hs']; subst.
    assert (length bw = length ss) as Hl by lia.
    specialize (IH ss Hl Hb' Hs').
    change (realised_caps (b :: bw) (s :: ss))
      with (b * Np.log2 (one_plus s) :: realised_caps bw ss).
    rewrite !sum_cons.
    assert (b * m <= b * (total * Np.log2 (one_plus s)))
      by (apply Rmult_le_compat_l; lra).
    assert (b * (total * Np.log2 (one_plus s)) <= b * M)
      by (apply Rmult_le_compat_l; lra).
    lra.
Qed.

(** X17.  The schedulers share the band, they do not multiply it: in
    every step of a run from a valid configuration whose links are
    resolved, the capacities the terminals realise on their allocated
    bandwidths add up to a value between the smallest and the largest
    instantaneous capacity of the step (the capacity one terminal would
    have on the whole band). *)
Theorem realised_capacity_is_shared (self : FiveGSimulator)
    (fading : nat -> nat -> R) (k : nat) :
  valid_config self -> fresh self -> well_conditioned self fading (S k) ->
  exists us bw,
    state_after self fading k = Ok us /\
    bw_alloc_of self (fading k) us = inr bw /\
    forall m M,
      Forall (fun c => m <= c <= M)
             (inst_caps (link_phase self (fading k) 0 us)) ->
      m <= sum (realised_caps bw
                  (snrs_linear (link_phase self (fading k) 0 us))) <= M.
Proof.
  intros Hv Hf Hwc.
  destruct (resolved_step self fading k Hv Hf Hwc)
    as (us & bw & us' & Hrun & (Hlen & Havg & _) & Hbw & Hl & Hsum & _).
  destruct (alloc_defined self (fading k) us Hv Hlen Havg)
    as (bw0 & Hbw0 & _ & Hnn).
  assert (bw0 = bw) as -> by congruence.
  exists us, bw. split; [assumption|]. split; [assumption|].
  intros m M Hcaps. rewrite link_phase_caps in Hcaps.
  apply Forall_map in Hcaps.
  destruct (link_phase_length self (fading k) 0 us) as (_ & Hss & _).
  pose proof (valid_total_bw _ Hv) as HB.
  pose proof (realised_between (total_bw_hz self) m M bw
                (snrs_linear (link_phase self (fading k) 0 us))
                ltac:(congruence) Hnn Hcaps) as H.
  rewrite Hsum in H. nra.
Qed.

Lemma realised_capacity_is_shared_witness :
  valid_config (main_sim demo_draws) /\ fresh (main_sim demo_draws) /\
  well_conditioned (main_sim demo_draws) demo_fading 3 /\
  exists us bw,
    state_after (main_sim demo_draws) demo_fading 2 = Ok us /\
    bw_alloc_of (main_sim demo_draws) (demo_fading 2%nat) us = inr bw /\
    forall m M,
      Forall (fun c => m <= c <= M)
             (inst_caps (link_phase (main_sim demo_draws)
                           (demo_fading 2%nat) 0 us)) ->
      m <= sum (realised_caps bw
                  (snrs_linear (link_phase (main_sim demo_draws)
                                  (demo_fading 2%nat) 0 us))) <= M.
Proof.
  assert (valid_config (main_sim demo_draws)) as Hv by valid_by_evaluation.
  assert (fresh (main_sim demo_draws)) as Hf by fresh_by_evaluation.
  assert (well_conditioned (main_sim demo_draws) demo_fading 3) as Hw
    by (apply defaults_well_conditioned, demo_fading_typical).
  split; [exact Hv|]. split; [exact Hf|]. split; [exact Hw|].
  exact (realised_capacity_is_shared (main_sim demo_draws) demo_fading 2
           Hv Hf Hw).
Defined.

(** ** Running again *)

Lemma link_phase_set_ues (self : FiveGSimulator) (u : list UE)
    (f : nat -> R) (i : nat) (us : list UE) :
  link_phase (set_ues self u) f i us = link_phase self f i us.
Proof.
  revert i. induction us as [|ue us IH]; intros i; simpl.
  - reflexivity.
  - now rewrite IH.
Qed.

Lemma step_set_ues (self : FiveGSimulator) (u : list UE) (f : nat -> R)
    (us : list UE) :
  step (set_ues self u) f us = step self f us.
Proof. unfold step. rewrite link_phase_set_ues. reflexivity. Qed.

Lemma run_steps_set_ues (self : FiveGSimulator) (u : list UE)
    (fading : nat -> nat -> R) (t n : nat) (us : list UE) :
  run_steps (set_ues self u) fading t n us = run_steps self fading t n us.
Proof.
  revert t us. induction n as [|n IH]; intros t us; simpl.
  - reflexivity.
  - rewrite step_set_ues. destruct (step self (fading t) us); auto.
Qed.

Lemma run_steps_shift (self : FiveGSimulator) (fading : nat -> nat -> R)
    (a t n : nat) (us : list UE) :
  run_steps self (shift fading a) t n us
  = run_steps self fading (a + t) n us.
Proof.
  revert t us. induction n as [|n IH]; intros t us; simpl.
  - reflexivity.
  - unfold shift at 1. destruct (step self (fading (a + t)%nat) us);
      [|reflexivity].
    rewrite IH. now replace (a + S t)%nat with (S (a + t)) by lia.
Qed.

Lemma run_steps_app (self : FiveGSimulator) (fading : nat -> nat -> R)
    (t a b : nat) (us : list UE) :
  run_steps self fading t (a + b) us =
  match run_steps self fading t a us with
  | Ok u => run_steps self fading (t + a) b u
  | Raised e u => Raised e u
  end.
Proof.
  revert t us. induction a as [|a IH]; intros t us.
  - simpl. now rewrite Nat.add_0_r.
  - change (run_steps self fading t (S a + b) us) with
      (match step self (fading t) us with
       | Ok us' => run_steps self fading (S t) (a + b) us'
       | Raised e us' => Raised e us'
       end).
    change (run_steps self fading t (S a) us) with
      (match step self (fading t) us with
       | Ok us' => run_steps self fading (S t) a us'
       | Raised e us' => Raised e us'
       end).
    destruct (step self (fading t) us) as [u|e u]; [|reflexivity].
    rewrite IH. now replace (S t + a)%nat with (t + S a)%nat by lia.
Qed.

(** X18.  [run] does not reset the terminals: calling it again on the
    simulator a completed run has left, with the Rayleigh samples that
    follow those already drawn, gives exactly what one run of twice the
    step count gives. *)
Theorem run_again_continues (self : FiveGSimulator)
    (fading : nat -> nat -> R) (us : list UE) :
  run self fading = Ok us ->
  run (set_ues self us) (shift fading (Z.to_nat (sim_steps self)))
  = run_steps self fading 0 (Z.to_nat (sim_steps self)
                             + Z.to_nat (sim_steps self)) (ues self).
Proof.
  unfold run. intros H. cbn [sim_steps ues set_ues].
  rewrite run_steps_set_ues, run_steps_shift, run_steps_app, H.
  now rewrite Nat.add_0_r.
Qed.

Lemma run_again_continues_witness :
  exists us,
    run narrow_sim demo_fading = Ok us /\
    run (set_ues narrow_sim us)
        (shift demo_fading (Z.to_nat (sim_steps narrow_sim)))
    = run_steps narrow_sim demo_fading 0
        (Z.to_nat (sim_steps narrow_sim) + Z.to_nat (sim_steps narrow_sim))
        (ues narrow_sim).
Proof.
  eexists. split; [reflexivity|].
  exact (run_again_continues narrow_sim demo_fading _ eq_refl).
Defined.

(** ** Latency as a function of the bandwidth *)

Lemma latency_antitone (ue : UE) (c1 c2 : R) :
  0 <= c1 -> c1 <= c2 ->
  (1e6 / (c2 + 1e-9) + distance ue / 3e8 + 1e-3) * 1000
  <= (1e6 / (c1 + 1e-9) + distance ue / 3e8 + 1e-3) * 1000.
Proof.
  intros H1 H12.
  apply Rmult_le_compat_r; [lra|].
  apply Rplus_le_compat_r, Rplus_le_compat_r.
  apply Rmult_le_compat_l; [lra|].
  apply Rinv_le_contravar; lra.
Qed.

Lemma latency_strictly_antitone (ue : UE) (c1 c2 : R) :
  0 <= c1 -> c1 < c2 ->
  (1e6 / (c2 + 1e-9) + distance ue / 3e8 + 1e-3) * 1000
  < (1e6 / (c1 + 1e-9) + distance ue / 3e8 + 1e-3) * 1000.
Proof.
  intros H1 H12.
  apply Rmult_lt_compat_r; [lra|].
  apply Rplus_lt_compat_r, Rplus_lt_compat_r.
  apply Rmult_lt_compat_l; [lra|].
  apply Rinv_0_lt_contravar; lra.
Qed.

(** X19.  More bandwidth never means more latency: the latency computed
    for a terminal does not grow when its allocated bandwidth grows, from
    a bandwidth of 0 on.  It strictly decreases when the link is resolved,
    the terminal is within 1000 km, the larger bandwidth is at least 1 Hz
    and its capacity at most 1e15 bits per second; on an absorbed link the
    capacity is 0 at every bandwidth and the latency does not change. *)
Theorem latency_decreases_with_bandwidth (ue : UE) (bw1 bw2 snr_lin : R) :
  0 <= bw1 -> bw1 < bw2 -> 0 < snr_lin ->
  latency_ms_of ue bw2 snr_lin <= latency_ms_of ue bw1 snr_lin /\
  (link_resolved snr_lin -> 0 <= distance ue <= 1e6 -> 1 <= bw2 ->
   cap_bps_of bw2 snr_lin <= 1e15 ->
   latency_ms_of ue bw2 snr_lin < latency_ms_of ue bw1 snr_lin) /\
  (snr_lin <= absorb_threshold ->
   latency_ms_of ue bw2 snr_lin = latency_ms_of ue bw1 snr_lin).
Proof.
  intros H1 H12 Hs. pose proof (log2_one_plus_nonneg snr_lin) as HL.
  pose proof (cap_bps_nonneg bw1 snr_lin H1) as Hc1.
  unfold latency_ms_of. cbv zeta. split; [|split].
  - apply latency_antitone; [exact Hc1|].
    unfold cap_bps_of. apply Rmult_le_compat_r; lra.
  - intros (Hres & _) _ _ _. apply latency_strictly_antitone; [exact Hc1|].
    unfold cap_bps_of. apply Rmult_lt_compat_r; [|exact H12].
    now apply log2_one_plus_pos.
  - intros Habs. unfold cap_bps_of.
    rewrite log2_one_plus_absorbed by assumption.
    now rewrite !Rmult_0_r.
Qed.

Lemma latency_decreases_with_bandwidth_witness :
  0 <= 0 /\ 0 < 4e6 /\ 0 < 1 /\
  link_resolved 1 /\ 0 <= distance (UE_init 0 100) <= 1e6 /\
  1 <= 4e6 /\ cap_bps_of 4e6 1 <= 1e15 /\
  latency_ms_of (UE_init 0 100) 4e6 1 < latency_ms_of (UE_init 0 100) 0 1.
Proof.
  assert (0 <= 0) as H1 by lra. assert (0 < 4e6) as H2 by lra.
  assert (0 < 1) as H3 by lra.
  assert (link_resolved 1) as H4
    by (pose proof absorb_threshold_pos; unfold link_resolved;
        unfold absorb_threshold in *; lra).
  assert (0 <= distance (UE_init 0 100) <= 1e6) as Hd by (simpl; lra).
  assert (1 <= 4e6) as H5 by lra.
  assert (cap_bps_of 4e6 1 <= 1e15) as H6.
  { unfold cap_bps_of. rewrite one_plus_resolved by apply H4.
    replace (Np.log2 (1 + 1)) with 1; [lra|].
    unfold Np.log2. replace (1 + 1) with 2 by lra.
    pose proof ln2_pos. field. lra. }
  destruct (latency_decreases_with_bandwidth (UE_init 0 100) 0 4e6 1
              H1 H2 H3) as (_ & Hlt & _).
  split; [exact H1|]. split; [exact H2|]. split; [exact H3|].
  split; [exact H4|]. split; [exact Hd|]. split; [exact H5|].
  split; [exact H6|]. exact (Hlt H4 Hd H5 H6).
Defined.

(** X20.  The floor of 1e-9 bounds the latency from above: for a
    bandwidth of 0 or more at a positive linear SNR, the latency lies
    strictly above the terminal's latency floor and at most 1e18 ms above
    it, and a bandwidth of exactly 0 gives that largest value. *)
Theorem latency_bounds (ue : UE) (bw snr_lin : R) :
  0 <= bw -> 0 < snr_lin ->
  latency_floor_ms ue < latency_ms_of ue bw snr_lin /\
  latency_ms_of ue bw snr_lin <= latency_floor_ms ue + 1e18 /\
  latency_ms_of ue 0 snr_lin = latency_floor_ms ue + 1e18.
Proof.
  intros Hb Hs. pose proof (log2_one_plus_nonneg snr_lin) as HL.
  unfold latency_ms_of, latency_floor_ms, cap_bps_of.
  assert (0 <= bw * Np.log2 (one_plus snr_lin)) as Hc by nra.
  set (c := bw * Np.log2 (one_plus snr_lin)) in *.
  assert (0 < 1e6 / (c + 1e-9)) as Hpos by (apply Rdiv_lt_0_compat; lra).
  assert (1e6 / (c + 1e-9) <= 1e15) as Hle.
  { apply Rmult_le_reg_r with (c + 1e-9); [lra|].
    unfold Rdiv. rewrite Rmult_assoc, Rinv_l by lra. lra. }
  repeat split; try lra.
  replace (0 * Np.log2 (one_plus snr_lin) + 1e-9) with 1e-9 by lra. lra.
Qed.

Lemma latency_bounds_witness :
  0 <= 4e6 /\ 0 < 1 /\
  latency_floor_ms (UE_init 0 100) < latency_ms_of (UE_init 0 100) 4e6 1 /\
  latency_ms_of (UE_init 0 100) 4e6 1
    <= latency_floor_ms (UE_init 0 100) + 1e18 /\
  latency_ms_of (UE_init 0 100) 0 1 = latency_floor_ms (UE_init 0 100) + 1e18.
Proof.
  assert (0 <= 4e6) as H1 by lra. assert (0 < 1) as H2 by lra.
  split; [exact H1|]. split; [exact H2|].
  exact (latency_bounds (UE_init 0 100) 4e6 1 H1 H2).
Defined.

(** ** save_results *)

Lemma insert_sorted_perm (x : R) (l : list R) :
  Permutation (x :: l) (insert_sorted x l).
Proof.
  induction l as [|y l IH]; simpl.
  - reflexivity.
  - destruct (Rle_dec x y); [reflexivity|].
    rewrite perm_swap. now apply perm_skip.
Qed.

Lemma np_sort_perm (xs : list R) : Permutation xs (np_sort xs).
Proof.
  induction xs as [|x xs IH]; simpl.
  - constructor.
  - rewrite <- insert_sorted_perm. now apply perm_skip.
Qed.

Lemma insert_sorted_hd (x y : R) (l : list R) :
  y <= x -> HdRel Rle y l -> HdRel Rle y (insert_sorted x l).
Proof.
  intros Hyx H. destruct l as [|z l]; simpl.
  - now constructor.
  - destruct (Rle_dec x z); constructor; [assumption|].
    now inversion H.
Qed.

Lemma insert_sorted_sorted (x : R) (l : list R) :
  Sorted Rle l -> Sorted Rle (insert_sorted x l).
Proof.
  induction 1 as [|y l Hs IH Hhd]; simpl.
  - repeat constructor.
  - destruct (Rle_dec x y) as [Hxy|Hxy].
    + constructor; [now constructor | now constructor].
    + constructor; [exact IH|]. apply insert_sorted_hd; [lra | exact Hhd].
Qed.

(** The model of numpy's sort does sort. *)
Lemma np_sort_sorted (xs : list R) : Sorted Rle (np_sort xs).
Proof.
  induction xs as [|x xs IH]; simpl.
  - constructor.
  - now apply insert_sorted_sorted.
Qed.

Lemma np_sort_Forall (P : R -> Prop) (xs : list R) :
  Forall P xs -> Forall P (np_sort xs).
Proof. intros H. eapply Permutation_Forall; [apply np_sort_perm | exact H]. Qed.

Lemma np_sort_length (xs : list R) : length (np_sort xs) = length xs.
Proof. symmetry. apply Permutation_length, np_sort_perm. Qed.

Lemma sum_above (c : R) (xs : list R) :
  xs <> [] -> Forall (fun x => c < x) xs -> INR (length xs) * c < sum xs.
Proof.
  intros Hne Hall. induction Hall as [|x xs Hx Hxs IH].
  - now contradiction Hne.
  - rewrite sum_cons. change (length (x :: xs)) with (S (length xs)).
    rewrite S_INR. destruct xs as [|y ys].
    + unfold sum. simpl. lra.
    + assert (INR (length (y :: ys)) * c < sum (y :: ys))
        by (apply IH; discriminate).
      lra.
Qed.

Lemma np_mean_above (c : R) (xs : list R) :
  xs <> [] -> Forall (fun x => c < x) xs -> c < np_mean xs.
Proof.
  intros Hne Hall. unfold np_mean.
  assert (0 < INR (length xs)) as Hn.
  { apply lt_0_INR. destruct xs; [contradiction | simpl; lia]. }
  pose proof (sum_above c xs Hne Hall) as Hs.
  apply Rmult_lt_reg_r with (INR (length xs)); [assumption|].
  unfold Rdiv. rewrite Rmult_assoc, Rinv_l by lra. lra.
Qed.

Lemma np_median_above (c : R) (xs : list R) :
  xs <> [] -> Forall (fun x => c < x) xs -> c < np_median xs.
Proof.
  intros Hne Hall.
  assert (0 < length xs)%nat as Hn
    by (destruct xs; [contradiction | simpl; lia]).
  pose proof (np_sort_Forall _ _ Hall) as Hs. rewrite Forall_forall in Hs.
  assert (forall i, (i < length xs)%nat -> c < nth i (np_sort xs) 0) as Hnth.
  { intros i Hi. apply Hs, nth_In. now rewrite np_sort_length. }
  assert (length xs / 2 < length xs)%nat as Hhalf
    by (apply Nat.div_lt; lia).
  unfold np_median. destruct (Nat.even (length xs)).
  - pose proof (Hnth (length xs / 2 - 1)%nat ltac:(lia)).
    pose proof (Hnth (length xs / 2)%nat Hhalf). lra.
  - now apply Hnth.
Qed.

(** X21.  After a completed run from a valid configuration whose links
    are resolved, the summary table has one row per terminal, in the order
    and under the identifiers of the terminals; every row reports a
    strictly positive mean throughput and a median latency strictly above
    1 ms. *)
Theorem summary_of_completed_run (self : FiveGSimulator)
    (fading : nat -> nat -> R) :
  valid_config self -> fresh self ->
  well_conditioned self fading (Z.to_nat (sim_steps self)) ->
  exists us,
    run self fading = Ok us /\
    map row_ue (save_results_summary (set_ues self us)) = map id (ues self) /\
    Forall (fun row => 0 < mean_throughput_mbps row /\
                       1 < median_latency_ms row)
           (save_results_summary (set_ues self us)).
Proof.
  intros Hv Hf Hwc.
  set (n := Z.to_nat (sim_steps self)) in *.
  destruct (reachable_invariant self fading n Hv Hf)
    as (us & Hrun & _ & _ & Hdist & Hhist).
  destruct (samples_clear self fading n Hv Hf Hwc) as (us' & Hrun' & Hpos).
  assert (us' = us) as -> by (apply Ok_inj; congruence).
  assert (0 < n)%nat as Hn
    by (pose proof (valid_sim_steps _ Hv); unfold n; lia).
  exists us. split; [exact Hrun|]. split.
  - unfold save_results_summary. cbn [ues set_ues]. rewrite map_map. simpl.
    pose proof (run_keeps_terminals self fading n) as (_ & Hid & _).
    unfold state_after in Hid. unfold state_after in Hrun.
    rewrite Hrun in Hid. exact Hid.
  - unfold save_results_summary. cbn [ues set_ues].
    apply Forall_map. apply Forall_by_nth. intros i ue Hue. simpl.
    pose proof (Forall_nth_error_inv _ _ _ _ Hdist Hue) as Hd.
    pose proof (Forall_nth_error_inv _ _ _ _ Hhist Hue) as (Hlt & Hll & _).
    pose proof (Forall_nth_error_inv _ _ _ _ Hpos Hue) as (Ht & Hl).
    simpl in Hd. split.
    + apply np_mean_above; [|exact Ht].
      intros E. rewrite E in Hlt. simpl in Hlt. lia.
    + apply np_median_above.
      * intros E. rewrite E in Hll. simpl in Hll. lia.
      * eapply Forall_impl; [|exact Hl]. simpl. intros l Hfl.
        unfold latency_floor_ms in Hfl.
        assert (0 < distance ue / 3e8) by (apply Rdiv_lt_0_compat; lra).
        lra.
Qed.

Lemma summary_of_completed_run_witness :
  valid_config (main_sim demo_draws) /\ fresh (main_sim demo_draws) /\
  well_conditioned (main_sim demo_draws) demo_fading
                   (Z.to_nat (sim_steps (main_sim demo_draws))) /\
  exists us,
    run (main_sim demo_draws) demo_fading = Ok us /\
    map row_ue (save_results_summary (set_ues (main_sim demo_draws) us))
      = map id (ues (main_sim demo_draws)) /\
    Forall (fun row => 0 < mean_throughput_mbps row /\
                       1 < median_latency_ms row)
           (save_results_summary (set_ues (main_sim demo_draws) us)).
Proof.
  assert (valid_config (main_sim demo_draws)) as Hv by valid_by_evaluation.
  assert (fresh (main_sim demo_draws)) as Hf by fresh_by_evaluation.
  assert (well_conditioned (main_sim demo_draws) demo_fading
            (Z.to_nat (sim_steps (main_sim demo_draws)))) as Hw
    by (apply defaults_well_conditioned, demo_fading_typical).
  split; [exact Hv|]. split; [exact Hf|]. split; [exact Hw|].
  exact (summary_of_completed_run (main_sim demo_draws) demo_fading Hv Hf Hw).
Defined.

(** ** Identifiers *)

(** X22.  The identifiers the constructor hands out are the positions 0,
    1, 2, ... of the terminals, so they are pairwise distinct, and they
    stay so: after any number of steps of any run of a constructed
    simulator, completed or not, the identifiers are still that list. *)
Theorem identifiers_are_unique (n : Z) (bw tx nf mg : R) (sch : string)
    (steps : Z) (out : string) (draws : nat -> Z)
    (fading : nat -> nat -> R) (k : nat) :
  map id (terminals_of
            (state_after (FiveGSimulator_init n bw tx nf mg sch steps out
                            draws) fading k))
    = map Z.of_nat (seq 0 (Z.to_nat n)) /\
  NoDup (map id (terminals_of
                   (state_after (FiveGSimulator_init n bw tx nf mg sch steps
                                   out draws) fading k))).
Proof.
  pose proof (run_keeps_terminals
                (FiveGSimulator_init n bw tx nf mg sch steps out draws)
                fading k) as (_ & Hid & _).
  assert (map id (ues (FiveGSimulator_init n bw tx nf mg sch steps out draws))
          = map Z.of_nat (seq 0 (Z.to_nat n))) as H0.
  { cbn [ues FiveGSimulator_init]. rewrite map_map. reflexivity. }
  rewrite Hid, H0. split; [reflexivity|].
  apply Injective_map_NoDup; [|apply seq_NoDup].
  intros a b. apply Nat2Z.inj.
Qed.

(** ** No terminals *)

Lemma run_steps_no_terminals (self : FiveGSimulator)
    (fading : nat -> nat -> R) (t n : nat) :
  recognised self ->
  (scheduler self = "equal"%string -> num_ues self <> 0%Z) ->
  run_steps self fading t n [] = Ok [].
Proof.
  intros Hr Hn. revert t. induction n as [|n IH]; intros t.
  - reflexivity.
  - change (run_steps self fading t (S n) []) with
      (match step self (fading t) [] with
       | Ok us' => run_steps self fading (S t) n us'
       | Raised e us' => Raised e us'
       end).
    destruct (step_completes self (fading t) [] Hr Hn) as (u & Hu).
    rewrite Hu. destruct (step_ok_shape _ _ _ _ Hu) as (bw & ->).
    simpl. apply IH.
Qed.

(** X23.  A terminal count below 0 is taken as no terminals at all: the
    constructor builds none, and under either recognised scheduler the run
    completes without a terminal and the summary table is empty.  The same
    holds for a count of 0 under the proportional-fair scheduler. *)
Theorem no_terminals_run_is_empty (n : Z) (bw tx nf mg : R) (sch : string)
    (steps : Z) (out : string) (draws : nat -> Z)
    (fading : nat -> nat -> R) :
  (n <= 0)%Z ->
  sch = "pf"%string \/ (sch = "equal"%string /\ (n < 0)%Z) ->
  ues (FiveGSimulator_init n bw tx nf mg sch steps out draws) = [] /\
  run (FiveGSimulator_init n bw tx nf mg sch steps out draws) fading
    = Ok [] /\
  save_results_summary
    (set_ues (FiveGSimulator_init n bw tx nf mg sch steps out draws) []) = [].
Proof.
  intros Hn Hs.
  assert (ues (FiveGSimulator_init n bw tx nf mg sch steps out draws) = [])
    as H0.
  { cbn [ues FiveGSimulator_init].
    replace (Z.to_nat n) with 0%nat by lia. reflexivity. }
  split; [exact H0|]. split; [|reflexivity].
  unfold run. rewrite H0. apply run_steps_no_terminals.
  - unfold recognised. cbn [scheduler FiveGSimulator_init]. tauto.
  - cbn [scheduler num_ues FiveGSimulator_init]. intros E.
    destruct Hs as [->|(_ & Hlt)]; [discriminate E | lia].
Qed.

Lemma no_terminals_run_is_empty_witness :
  (-3 <= 0)%Z /\
  ("equal"%string = "pf"%string \/
   ("equal"%string = "equal"%string /\ (-3 < 0)%Z)) /\
  ues (FiveGSimulator_init (-3) 20e6 43 7 2 "equal" 50 "output" demo_draws)
    = [] /\
  run (FiveGSimulator_init (-3) 20e6 43 7 2 "equal" 50 "output" demo_draws)
      demo_fading = Ok [] /\
  save_results_summary
    (set_ues (FiveGSimulator_init (-3) 20e6 43 7 2 "equal" 50 "output"
                demo_draws) []) = [].
Proof.
  assert (-3 <= 0)%Z as Hn by lia.
  assert ("equal"%string = "pf"%string \/
          ("equal"%string = "equal"%string /\ (-3 < 0)%Z)) as Hs
    by (right; split; [reflexivity | lia]).
  split; [exact Hn|]. split; [exact Hs|].
  exact (no_terminals_run_is_empty (-3) 20e6 43 7 2 "equal" 50 "output"
           demo_draws demo_fading Hn Hs).
Defined.

(** ** Proportional fairness looks at ratios only *)

Lemma pf_weights_scaled (k : R) (caps : list R) (us : list UE) :
  pf_weights (map (fun c => k * c) caps) us
  = map (fun w => k * w) (pf_weights caps us).
Proof.
  unfold pf_weights. revert us.
  induction caps as [|c caps IH]; intros [|u us]; simpl; try reflexivity.
  rewrite IH. f_equal. unfold Rdiv. ring.
Qed.

Lemma sum_map_scaled (k : R) (xs : list R) :
  sum (map (fun w => k * w) xs) = k * sum xs.
Proof.
  induction xs as [|x xs IH]; simpl.
  - unfold sum. simpl. ring.
  - rewrite !sum_cons, IH. ring.
Qed.

Lemma share_scaled (k w W B : R) :
  k <> 0 -> W <> 0 -> k * w / (k * W) * B = w / W * B.
Proof. intros Hk HW. field. split; assumption. Qed.

(** X24.  The proportional-fair allocation depends on the instantaneous
    capacities through their ratios only: multiplying every capacity by
    the same non-zero factor leaves the allocation unchanged, as long as
    the weights do not add up to 0. *)
Theorem pf_ignores_common_factor (self : FiveGSimulator) (k : R)
    (caps : list R) (us : list UE) :
  scheduler self = "pf"%string -> k <> 0 ->
  sum (pf_weights caps us) <> 0 ->
  allocate self (map (fun c => k * c) caps) us = allocate self caps us.
Proof.
  intros Hpf Hk HW. rewrite !allocate_pf by assumption.
  rewrite pf_weights_scaled, sum_map_scaled, map_map. f_equal.
  apply map_ext. intros w. now apply share_scaled.
Qed.

Lemma pf_ignores_common_factor_witness :
  scheduler (main_sim demo_draws) = "pf"%string /\ 2 <> 0 /\
  sum (pf_weights [1; 2; 3; 4; 5] (ues (main_sim demo_draws))) <> 0 /\
  allocate (main_sim demo_draws) (map (fun c => 2 * c) [1; 2; 3; 4; 5])
           (ues (main_sim demo_draws))
  = allocate (main_sim demo_draws) [1; 2; 3; 4; 5]
             (ues (main_sim demo_draws)).
Proof.
  assert (2 <> 0) as Hk by lra.
  assert (sum (pf_weights [1; 2; 3; 4; 5] (ues (main_sim demo_draws))) <> 0)
    as HW.
  { apply Rgt_not_eq, Rlt_gt, sum_pos; [discriminate|].
    repeat constructor; simpl; apply Rdiv_lt_0_compat; lra. }
  split; [reflexivity|]. split; [exact Hk|]. split; [exact HW|].
  exact (pf_ignores_common_factor (main_sim demo_draws) 2 [1; 2; 3; 4; 5]
           (ues (main_sim demo_draws)) eq_refl Hk HW).
Defined.

(** ** Throughput and latency histories agree *)

(** X25.  The two metric histories of a terminal never drift apart:
    for terminals that start with consistent histories (as fresh ones do),
    after any number of steps, whatever the configuration and the outcome,
    a terminal has as many latency samples as throughput samples, and each
    latency sample is the one lines 109 to 111 derive from the throughput
    sample at the same position. *)
Theorem throughput_and_latency_agree (self : FiveGSimulator)
    (fading : nat -> nat -> R) (k : nat) :
  Forall histories_consistent (ues self) ->
  Forall (fun ue =>
            histories_consistent ue /\
            length (latency_history ue) = length (throughput_history ue))
         (terminals_of (state_after self fading k)).
Proof.
  intros H0.
  assert (Forall2 (fun ue ue' =>
                     histories_consistent ue -> histories_consistent ue')
            (ues self) (terminals_of (state_after self fading k))) as H.
  { apply run_steps_related; unfold histories_consistent.
    - auto.
    - auto.
    - intros ue s. simpl. auto.
    - intros ue bw s Hu. simpl. apply Forall2_app; [exact Hu|].
      constructor; [|constructor].
      unfold latency_ms_of, latency_of_throughput, throughput_mbps_of. simpl.
      replace (cap_bps_of bw s / 1e6 * 1e6) with (cap_bps_of bw s)
        by (field; lra).
      reflexivity. }
  revert H0. induction H as [|ue ue' us us' Hu _ IH]; intros H0.
  - constructor.
  - inversion H0; subst. constructor; [|auto].
    split; [auto|]. symmetry. eapply Forall2_length. apply Hu. assumption.
Qed.

Lemma throughput_and_latency_agree_witness :
  Forall histories_consistent (ues (main_sim demo_draws)) /\
  Forall (fun ue =>
            histories_consistent ue /\
            length (latency_history ue) = length (throughput_history ue))
         (terminals_of (state_after (main_sim demo_draws) demo_fading 3)).
Proof.
  assert (Forall histories_consistent (ues (main_sim demo_draws))) as H0
    by (repeat constructor).
  split; [exact H0|].
  exact (throughput_and_latency_agree (main_sim demo_draws) demo_fading 3 H0).
Defined.

(** ** Runs whose links are resolved

    What the missing floor on the total weight leaves intact: in a run
    from a valid configuration in which binary64 resolves every link
    ([well_conditioned]), the capacities are positive and so is the total
    weight. *)

(** X26.  At every step of such a run, under either scheduler, the
    allocation has one bandwidth per terminal, every bandwidth is strictly
    positive, and the bandwidths add up to the total bandwidth. *)
Theorem allocation_sums_when_resolved (self : FiveGSimulator)
    (fading : nat -> nat -> R) (k : nat) :
  valid_config self -> fresh self -> well_conditioned self fading (S k) ->
  exists us bw,
    state_after self fading k = Ok us /\
    bw_alloc_of self (fading k) us = inr bw /\
    length bw = length (ues self) /\
    Forall (fun b => 0 < b) bw /\
    sum bw = total_bw_hz self.
Proof.
  intros Hv Hf Hwc.
  destruct (reachable_resolved self fading k Hv Hf Hwc)
    as (us & Hrun & (Hlen & Havg & _) & Hres).
  assert (forall i ue, nth_error us i = Some ue ->
            absorb_threshold < snr_lin_of (snr_db_of self (fading k i) ue))
    as Hres'.
  { intros i ue Hue. apply (Hres i ue Hue). }
  destruct (alloc_resolved self (fading k) us Hv Hlen Havg Hres')
    as (bw & Hbw & Hl & Hpos & Hsum).
  exists us, bw. repeat split; try assumption.
  destruct Hf as (Hl0 & _). congruence.
Qed.

Lemma allocation_sums_when_resolved_witness :
  valid_config (main_sim demo_draws) /\ fresh (main_sim demo_draws) /\
  well_conditioned (main_sim demo_draws) demo_fading 4 /\
  exists us bw,
    state_after (main_sim demo_draws) demo_fading 3 = Ok us /\
    bw_alloc_of (main_sim demo_draws) (demo_fading 3%nat) us = inr bw /\
    length bw = length (ues (main_sim demo_draws)) /\
    Forall (fun b => 0 < b) bw /\
    sum bw = total_bw_hz (main_sim demo_draws).
Proof.
  assert (valid_config (main_sim demo_draws)) as Hv by valid_by_evaluation.
  assert (fresh (main_sim demo_draws)) as Hf by fresh_by_evaluation.
  assert (well_conditioned (main_sim demo_draws) demo_fading 4) as Hw
    by (apply defaults_well_conditioned, demo_fading_typical).
  split; [exact Hv|]. split; [exact Hf|]. split; [exact Hw|].
  exact (allocation_sums_when_resolved (main_sim demo_draws) demo_fading 3
           Hv Hf Hw).
Defined.

(** X27.  In such a run the average throughput of every terminal is
    strictly positive before and after every step, and after the step it
    is at least nine tenths of its value before. *)
Theorem avg_throughput_positive_when_resolved (self : FiveGSimulator)
    (fading : nat -> nat -> R) (k : nat) :
  valid_config self -> fresh self -> well_conditioned self fading (S k) ->
  exists us us',
    state_after self fading k = Ok us /\
    state_after self fading (S k) = Ok us' /\
    Forall2 (fun ue ue' =>
               0 < avg_throughput ue /\ 0 < avg_throughput ue' /\
               0.9 * avg_throughput ue <= avg_throughput ue')
            us us'.
Proof.
  intros Hv Hf Hwc.
  destruct (resolved_step self fading k Hv Hf Hwc)
    as (us & bw & us' & Hrun & (Hlen & Havg & _) & _ & _ & _ & Hrun' & Hnth).
  pose proof (reachable_invariant self fading (S k) Hv Hf)
    as (us1 & Hrun1 & Hlen' & _).
  assert (us1 = us') as -> by (apply Ok_inj; congruence).
  exists us, us'. split; [exact Hrun|]. split; [exact Hrun'|].
  apply Forall2_by_nth; [congruence|].
  intros i ue ue' Hue Hue'.
  destruct (Hnth i ue Hue) as ((Hres & _) & b & _ & Hb & Hn).
  assert (ue' = next_ue self (fading k i) ue b) as -> by congruence.
  pose proof (Forall_nth_error_inv _ _ _ _ Havg Hue) as Ha. simpl in Ha.
  split; [exact Ha|].
  pose proof (throughput_pos b _ Hb Hres) as Ht.
  unfold next_ue. simpl. lra.
Qed.

Lemma avg_throughput_positive_when_resolved_witness :
  valid_config (main_sim demo_draws) /\ fresh (main_sim demo_draws) /\
  well_conditioned (main_sim demo_draws) demo_fading 3 /\
  exists us us',
    state_after (main_sim demo_draws) demo_fading 2 = Ok us /\
    state_after (main_sim demo_draws) demo_fading 3 = Ok us' /\
    Forall2 (fun ue ue' =>
               0 < avg_throughput ue /\ 0 < avg_throughput ue' /\
               0.9 * avg_throughput ue <= avg_throughput ue')
            us us'.
Proof.
  assert (valid_config (main_sim demo_draws)) as Hv by valid_by_evaluation.
  assert (fresh (main_sim demo_draws)) as Hf by fresh_by_evaluation.
  assert (well_conditioned (main_sim demo_draws) demo_fading 3) as Hw
    by (apply defaults_well_conditioned, demo_fading_typical).
  split; [exact Hv|]. split; [exact Hf|]. split; [exact Hw|].
  exact (avg_throughput_positive_when_resolved (main_sim demo_draws)
           demo_fading 2 Hv Hf Hw).
Defined.



(** X29.  In such a run with non-negative Rayleigh samples, every step
    completes, and every number a step divides by and every number it
    takes a logarithm of is strictly positive, the total weight of the
    proportional-fair scheduler included. *)
Theorem operands_positive_when_resolved (self : FiveGSimulator)
    (fading : nat -> nat -> R) (k : nat) :
  valid_config self -> fresh self -> (forall t i, 0 <= fading t i) ->
  well_conditioned self fading (S k) ->
  exists us us',
    state_after self fading k = Ok us /\
    step self (fading k) us = Ok us' /\
    fst (step_t self (fading k) us) = Ok us' /\
    Forall operand_ok (snd (step_t self (fading k) us)).
Proof.
  intros Hvalid Hfresh Hfad Hwc.
  destruct (reachable_resolved self fading k Hvalid Hfresh Hwc)
    as (us & Hrun & Hinv & Hres).
  pose proof Hinv as (Hlen & Havg & _).
  assert (forall i ue, nth_error us i = Some ue ->
            absorb_threshold < snr_lin_of (snr_db_of self (fading k i) ue))
    as Hres'.
  { intros i ue Hue. apply (Hres i ue Hue). }
  destruct (step_defined self (fading k) us Hvalid Hlen Havg)
    as (bw & us' & _ & Hstep & _).
  pose proof (total_weight_positive self (fading k) us Hvalid Hlen Havg Hres')
    as HW.
  cbv zeta in HW.
  exists us, us'. split; [assumption|]. split; [assumption|].
  split; [now rewrite step_t_value|].
  apply (step_t_operands self (fading k) k us Hvalid Hinv).
  - intros j. apply Hfad.
  - intros _. unfold shares_defined. lra.
Qed.

Lemma operands_positive_when_resolved_witness :
  valid_config (main_sim demo_draws) /\ fresh (main_sim demo_draws) /\
  (forall t i, 0 <= demo_fading t i) /\
  well_conditioned (main_sim demo_draws) demo_fading 3 /\
  exists us us',
    state_after (main_sim demo_draws) demo_fading 2 = Ok us /\
    step (main_sim demo_draws) (demo_fading 2%nat) us = Ok us' /\
    fst (step_t (main_sim demo_draws) (demo_fading 2%nat) us) = Ok us' /\
    Forall operand_ok (snd (step_t (main_sim demo_draws)
                              (demo_fading 2%nat) us)).
Proof.
  assert (valid_config (main_sim demo_draws)) as Hv by valid_by_evaluation.
  assert (fresh (main_sim demo_draws)) as Hf by fresh_by_evaluation.
  assert (forall t i : nat, 0 <= demo_fading t i) as Hd.
  { intros t i. unfold demo_fading. lra. }
  assert (well_conditioned (main_sim demo_draws) demo_fading 3) as Hw
    by (apply defaults_well_conditioned, demo_fading_typical).
  split; [exact Hv|]. split; [exact Hf|]. split; [exact Hd|].
  split; [exact Hw|].
  exact (operands_positive_when_resolved (main_sim demo_draws) demo_fading 2
           Hv Hf Hd Hw).
Defined.

(** X30.  The constructor's defaults are such a run: with the default
    bandwidth, transmit power, noise figure and MIMO gain, whatever the
    terminal count, the scheduler and the draws of the distances, every
    link at a Rayleigh sample between 0.001 and 9 has an SNR between
    -80 dB and 100 dB and is resolved. *)
Theorem default_links_are_resolved (n : Z) (sch : string) (steps : Z)
    (out : string) (draws : nat -> Z) (fading : nat -> nat -> R) :
  (forall t i, 1e-3 <= fading t i <= 9) ->
  (forall k,
     well_conditioned (FiveGSimulator_init n 20e6 43 7 2 sch steps out draws)
                      fading k) /\
  forall t i ue,
    nth_error (ues (FiveGSimulator_init n 20e6 43 7 2 sch steps out draws)) i
      = Some ue ->
    -80 <= snr_db_of (FiveGSimulator_init n 20e6 43 7 2 sch steps out draws)
                     (fading t i) ue <= 100.
Proof.
  intros Hfad. split.
  - intros k. now apply defaults_well_conditioned.
  - intros t i ue Hue. apply init_ues_nth in Hue. destruct Hue as (_ & ->).
    pose proof (randint_range 50 500 (draws i) ltac:(lia)) as (Hlo & Hhi).
    apply IZR_le in Hlo. apply IZR_lt in Hhi.
    pose proof (fading_log_bounds (fading t i) (Hfad t i)) as HL.
    pose proof (snr_db_window
                  (FiveGSimulator_init n 20e6 43 7 2 sch steps out draws)
                  (fading t i)
                  (UE_init (Z.of_nat i) (IZR (Np.randint 50 500 (draws i)))))
      as H.
    cbn [distance UE_init mimo_gain total_bw_hz tx_power_dbm noise_fig_db
         FiveGSimulator_init] in H.
    destruct H as [H1 H2]; lra.
Qed.

Lemma default_links_are_resolved_witness :
  (forall t i : nat, 1e-3 <= demo_fading t i <= 9) /\
  well_conditioned (main_sim demo_draws) demo_fading 100 /\
  -80 <= snr_db_of (main_sim demo_draws) (demo_fading 0%nat 0%nat)
                   (UE_init 0 50) <= 100.
Proof.
  destruct (default_links_are_resolved 5 "pf" 100 "output" demo_draws
              demo_fading demo_fading_typical) as (Hw & Hs).
  split; [exact demo_fading_typical|]. split; [exact (Hw 100%nat)|].
  exact (Hs 0%nat 0%nat (UE_init 0 50) eq_refl).
Defined.
